(** * devrunauto: result extraction, comparison and broadcast layer

    A shallow embedding of [commerce_agent.py], [server.py] and the session
    helper of [event_coordinator_agent.py], with the properties of the
    design document checked against it.

    Conventions of the embedding:
    - a Python [str] is a [string]; characters are the code points below
      256, among which the decimal digits are exactly ['0'..'9'];
    - a Python [float] is a binary64 number, [spec_float] with
      [prec = 53] and [emax = 1024];
    - a call that may raise returns an [outcome]; the faults are the
      instances of [Exception] (what [except Exception] and a bare
      [except] both catch);
    - what lives outside the repository (the automation agent, [json.loads],
      [str()] of a non-string object, [json.dumps], the absent agent
      classes) is a section variable, so every theorem holds for all of
      their behaviours. *)

From Stdlib Require Import ZArith List String Ascii Bool Arith Lia.
From Stdlib Require Import Floats.SpecFloat.
From Stdlib Require Import Sorting.Sorted Sorting.Permutation.
Import ListNotations.

Set Implicit Arguments.

(** ** Python runtime notions *)

Module Py.

Local Open Scope string_scope.

(** *** Faults and outcomes *)

Inductive exn_kind :=
| ImportError | JSONDecodeError | KeyError | TypeError | AttributeError
| ValueError | IndexError | RuntimeError.

Record exn := Exn { exn_kind_of : exn_kind; exn_text : string }.

Inductive outcome (A : Type) :=
| Ok (a : A)
| Raise (e : exn).

Arguments Ok {A} a.
Arguments Raise {A} e.

Definition bind {A B} (m : outcome A) (k : A -> outcome B) : outcome B :=
  match m with
  | Ok a => k a
  | Raise e => Raise e
  end.

Definition returns {A} (m : outcome A) : bool :=
  match m with Ok _ => true | Raise _ => false end.

(** *** Strings *)

Definition is_digit (c : ascii) : bool :=
  (48 <=? nat_of_ascii c)%nat && (nat_of_ascii c <=? 57)%nat.

(** Whether a string holds a decimal digit. *)
Fixpoint has_digit (s : string) : bool :=
  match s with
  | String c s' => is_digit c || has_digit s'
  | EmptyString => false
  end.

(** [str.isspace] on the code points below 256. *)
Definition is_space (c : ascii) : bool :=
  let n := nat_of_ascii c in
  ((9 <=? n) && (n <=? 13) || (28 <=? n) && (n <=? 32)
   || (n =? 133) || (n =? 160))%nat.

Fixpoint lstrip (s : string) : string :=
  match s with
  | String c s' => if is_space c then lstrip s' else s
  | EmptyString => EmptyString
  end.

Fixpoint rstrip (s : string) : string :=
  match s with
  | String c s' =>
      match rstrip s' with
      | EmptyString => if is_space c then EmptyString else String c EmptyString
      | r => String c r
      end
  | EmptyString => EmptyString
  end.

(** [s.strip()] *)
Definition strip (s : string) : string := lstrip (rstrip s).

Fixpoint take (n : nat) (s : string) : string :=
  match n, s with
  | S n', String c s' => String c (take n' s')
  | _, _ => EmptyString
  end.

Fixpoint drop (n : nat) (s : string) : string :=
  match n, s with
  | S n', String _ s' => drop n' s'
  | _, _ => s
  end.

(** [s.startswith(p)] *)
Definition startswith (p s : string) : bool := prefix p s.

(** [s.find(sub)], [None] for [-1]. *)
Fixpoint find (sub s : string) : option nat :=
  if prefix sub s then Some 0%nat
  else match s with
       | String _ s' => option_map S (find sub s')
       | EmptyString => None
       end.

(** [sub in s] *)
Definition contains (sub s : string) : bool :=
  match find sub s with Some _ => true | None => false end.

(** [s.split(sep)] for a non-empty separator (the source only passes
    literals): cut at the leftmost occurrence and go on after it.  Every cut
    consumes at least one character, so [length s] rounds are enough. *)
Fixpoint split_fuel (fuel : nat) (sep s : string) : list string :=
  match fuel with
  | O => [s]
  | S fuel' =>
      match find sep s with
      | Some i => take i s :: split_fuel fuel' sep (drop (i + length sep) s)
      | None => [s]
      end
  end.

Definition split (sep s : string) : list string :=
  split_fuel (length s) sep s.

Fixpoint join (sep : string) (l : list string) : string :=
  match l with
  | [] => EmptyString
  | [x] => x
  | x :: l' => x ++ sep ++ join sep l'
  end.

(** [s.replace(old, new)] for a non-empty [old]. *)
Definition replace (old new s : string) : string :=
  join new (split old s).

(** [l[i]] *)
Definition getitem_list {A} (l : list A) (i : nat) : outcome A :=
  match nth_error l i with
  | Some x => Ok x
  | None => Raise (Exn IndexError "list index out of range")
  end.

(** *** Floats *)

Definition float := spec_float.

Definition inf : float := S754_infinity false.
Definition zero : float := S754_zero false.

Definition fdiv : float -> float -> float := SFdiv 53 1024.
Definition flt : float -> float -> bool := SFltb.
Definition feq : float -> float -> bool := SFeqb.
Definition fle : float -> float -> bool := SFleb.
Definition fneg : float -> float := SFopp.

Definition is_nan (f : float) : bool :=
  match f with S754_nan => true | _ => false end.


Definition sign_bit (f : float) : bool :=
  match f with
  | S754_zero s | S754_infinity s | S754_finite s _ _ => s
  | S754_nan => false
  end.

(** The integer a float stands for when it is one. *)
Definition float_of_Z (z : Z) : float :=
  match z with
  | Z0 => zero
  | Zpos p => S754_finite false p 0
  | Zneg p => S754_finite true p 0
  end.

Definition digit_val (c : ascii) : Z := Z.of_nat (nat_of_ascii c - 48).

(** The number written by a string of digits, most significant first. *)
Fixpoint digits_val (acc : Z) (s : string) : Z :=
  match s with
  | String c s' => digits_val (10 * acc + digit_val c) s'
  | EmptyString => acc
  end.

(** [float(text)] on a text of the shape [d+] or [d+.d+]: the binary64
    number nearest to the decimal (ties to even), [+inf] beyond the range.
    The quotient of the digits read as one integer by the power of ten of
    the fraction length is rounded once, by [SFdiv]. *)
Definition float_of_numeral (text : string) : float :=
  let '(ip, fp) :=
    match find "." text with
    | Some i => (take i text, drop (S i) text)
    | None => (text, EmptyString)
    end in
  fdiv (float_of_Z (digits_val 0 (ip ++ fp)))
       (float_of_Z (10 ^ Z.of_nat (length fp))).

(** *** Regular expression [\d+(\.\d+)?] *)

Fixpoint span_digits (s : string) : string * string :=
  match s with
  | String c s' =>
      if is_digit c
      then let '(ds, rest) := span_digits s' in (String c ds, rest)
      else (EmptyString, s)
  | EmptyString => (EmptyString, EmptyString)
  end.

(** The match anchored at the start of [s]: the longest run of digits, then
    a dot and a run of digits when both are there. *)
Definition match_numeral (s : string) : option string :=
  match span_digits s with
  | (EmptyString, _) => None
  | (ds, String "." rest) =>
      match span_digits rest with
      | (EmptyString, _) => Some ds
      | (fs, _) => Some (ds ++ "." ++ fs)
      end
  | (ds, _) => Some ds
  end.

(** [re.search(r'\d+(\.\d+)?', s).group()], [None] when there is no match:
    the match at the leftmost position that has one. *)
Fixpoint search_numeral (s : string) : option string :=
  match match_numeral s with
  | Some m => Some m
  | None =>
      match s with
      | String _ s' => search_numeral s'
      | EmptyString => None
      end
  end.


(** [s.lower()] on the code points below 256. *)
Definition lower_char (c : ascii) : ascii :=
  let n := nat_of_ascii c in
  if ((65 <=? n) && (n <=? 90) || (192 <=? n) && (n <=? 222) && negb (n =? 215))%nat
  then ascii_of_nat (n + 32) else c.

Fixpoint lower (s : string) : string :=
  match s with
  | String c s' => String (lower_char c) (lower s')
  | EmptyString => EmptyString
  end.

(** *** Objects

    The objects that [json.loads] builds, which are also the objects the
    agents hand back.  A [dict] keeps its keys in insertion order. *)

#[warning="-register-all"]
Inductive value :=
| VNone
| VBool (b : bool)
| VInt (z : Z)
| VFloat (f : float)
| VStr (s : string)
| VList (l : list value)
| VDict (d : list (string * value)).

Definition dict := list (string * value).

Fixpoint dict_lookup (k : string) (d : dict) : option value :=
  match d with
  | (k', v) :: d' => if String.eqb k k' then Some v else dict_lookup k d'
  | [] => None
  end.

(** [d[k] = v]: the value is replaced where the key stands, a new key goes
    last. *)
Fixpoint dict_set (k : string) (v : value) (d : dict) : dict :=
  match d with
  | (k', v') :: d' =>
      if String.eqb k k' then (k', v) :: d' else (k', v') :: dict_set k v d'
  | [] => [(k, v)]
  end.

(** [x[k]] for a string key. *)
Definition subscript (x : value) (k : string) : outcome value :=
  match x with
  | VDict d =>
      match dict_lookup k d with
      | Some v => Ok v
      | None => Raise (Exn KeyError k)
      end
  | VList _ | VStr _ =>
      Raise (Exn TypeError "indices must be integers")
  | _ => Raise (Exn TypeError "object is not subscriptable")
  end.

(** [x.get(k, default)] *)
Definition get_method (x : value) (k : string) (default : value)
  : outcome value :=
  match x with
  | VDict d =>
      match dict_lookup k d with
      | Some v => Ok v
      | None => Ok default
      end
  | _ => Raise (Exn AttributeError "object has no attribute 'get'")
  end.

(** [x[k] = v] for a string key; the updated object is returned. *)
Definition setitem (x : value) (k : string) (v : value) : outcome value :=
  match x with
  | VDict d => Ok (VDict (dict_set k v d))
  | _ => Raise (Exn TypeError "object does not support item assignment")
  end.

(** [for item in x]: the elements the loop visits. *)
Definition iterate (x : value) : outcome (list value) :=
  match x with
  | VList l => Ok l
  | VDict d => Ok (map (fun kv => VStr (fst kv)) d)
  | VStr s => Ok (map (fun c => VStr (String c EmptyString)) (list_ascii_of_string s))
  | _ => Raise (Exn TypeError "object is not iterable")
  end.

Definition isinstance_dict (x : value) : bool :=
  match x with VDict _ => true | _ => false end.

(** Truth value of an object in a condition. *)
Definition truthy (x : value) : bool :=
  match x with
  | VNone => false
  | VBool b => b
  | VInt z => negb (Z.eqb z 0)
  | VFloat f => negb (feq f zero)
  | VStr s => negb (String.eqb s EmptyString)
  | VList l => match l with [] => false | _ => true end
  | VDict d => match d with [] => false | _ => true end
  end.

(** [a < b].  The source only ever compares the floats it stored itself
    under [numeric_price] and [numeric_rating]; the orders of the other
    types are left out of the embedding and such a comparison raises. *)
Definition value_lt (a b : value) : outcome bool :=
  match a, b with
  | VFloat x, VFloat y => Ok (flt x y)
  | _, _ => Raise (Exn TypeError "'<' not supported")
  end.

(** [-a], on the same footing. *)
Definition value_neg (a : value) : outcome value :=
  match a with
  | VFloat x => Ok (VFloat (fneg x))
  | _ => Raise (Exn TypeError "bad operand type for unary -")
  end.

(** *** State and faults together

    A computation over a state [S] that may raise; what was written to the
    state before the fault stays written. *)

Section StateExn.
Variable S : Type.

Definition M (A : Type) := S -> outcome A * S.

Definition ret {A} (a : A) : M A := fun s => (Ok a, s).

Definition mbind {A B} (m : M A) (k : A -> M B) : M B :=
  fun s => match m s with
           | (Ok a, s') => k a s'
           | (Raise e, s') => (Raise e, s')
           end.

Definition lift {A} (o : outcome A) : M A := fun s => (o, s).

Definition get : M S := fun s => (Ok s, s).

Definition modify (f : S -> S) : M unit := fun s => (Ok tt, f s).
End StateExn.

Arguments ret {S A} a.
Arguments mbind {S A B} m k.
Arguments lift {S A} o.
Arguments get {S}.
Arguments modify {S} f.

(** *** The object store

    List objects are held by reference: the store maps a location to the
    present content of the list allocated there.  The trace records when an
    automation session starts and ends. *)

Definition loc := nat.

Inductive event :=
| SessionBegin (app : string)
| SessionEnd (app : string).

Record world := World { heap : list (list value); trace : list event }.

Definition alloc (l : list value) (w : world) : loc * world :=
  (List.length (heap w), World (heap w ++ [l]) (trace w)).

Definition deref (p : loc) (w : world) : list value :=
  nth p (heap w) [].

Fixpoint update_nth {A} (n : nat) (x : A) (l : list A) : list A :=
  match n, l with
  | O, _ :: l' => x :: l'
  | S n', y :: l' => y :: update_nth n' x l'
  | _, [] => []
  end.

Definition store (p : loc) (l : list value) (w : world) : world :=
  World (update_nth p l (heap w)) (trace w).

Definition emit (e : event) (w : world) : world :=
  World (heap w) (trace w ++ [e]).

End Py.

Notation "x <- m ;; k" := (Py.bind m (fun x => k))
  (at level 61, m at next level, right associativity).
Notation "x <~ m ;; k" := (Py.mbind m (fun x => k))
  (at level 61, m at next level, right associativity).

(** ** commerce_agent.py *)

Module CommerceAgent.

Import Py.
Local Open Scope string_scope.

(** *** ResultNormalizer *)

Section Normalizer.
(** The argument can be any object; [str] is [str()] on its type. *)
Context {A : Type} (str : A -> outcome string).

Definition parse_price (price_str : A) : float :=
  match
    (s <- str price_str ;;
     let clean := strip (replace "," "" s) in
     Ok (match search_numeral clean with
         | Some m => float_of_numeral m
         | None => inf
         end))
  with
  | Ok x => x
  | Raise _ => inf
  end.

Definition parse_rating (rating_str : A) : float :=
  match
    (s <- str rating_str ;;
     let clean := strip s in
     Ok (match search_numeral clean with
         | Some m => float_of_numeral m
         | None => zero
         end))
  with
  | Ok x => x
  | Raise _ => zero
  end.
End Normalizer.

(** [str()] of a string is the string. *)
Definition str_of_str (s : string) : outcome string := Ok s.

(** *** Session results *)

(** The dictionary [result_data]; [items] refers to a list object. *)
Record result_data := ResultData {
  platform : string;
  status : string;
  items : loc;
  best_item : value;
  raw_response : string
}.

Definition set_items (p : loc) (r : result_data) : result_data :=
  ResultData (platform r) (status r) p (best_item r) (raw_response r).

Definition set_status (s : string) (r : result_data) : result_data :=
  ResultData (platform r) s (items r) (best_item r) (raw_response r).

Definition set_best_item (v : value) (r : result_data) : result_data :=
  ResultData (platform r) (status r) (items r) v (raw_response r).

(** What the [try] block of [perform_search] works on: the store and the
    local [result_data]. *)
Record frame := Frame { fr_world : world; fr_result : result_data }.

Definition on_world (f : world -> world) (fr : frame) : frame :=
  Frame (f (fr_world fr)) (fr_result fr).

Definition on_result (f : result_data -> result_data) (fr : frame) : frame :=
  Frame (fr_world fr) (f (fr_result fr)).

(** *** The sort of [valid_items]

    [list.sort(key=...)] computes every key first and then sorts stably,
    comparing keys with [<] alone.  Where [<] orders the keys - as it does
    the floats that are not NaN - a stable sort has one result, whatever
    the algorithm; it is computed here by insertion from the right, which
    leaves equal keys in the order they came in. *)

Definition sort_key (x : value) : outcome (value * value) :=
  p <- subscript x "numeric_price" ;;
  r <- subscript x "numeric_rating" ;;
  n <- value_neg r ;;
  Ok (p, n).

(** [==] on the objects that serve as keys. *)
Definition value_eq (a b : value) : bool :=
  match a, b with
  | VFloat x, VFloat y => feq x y
  | _, _ => false
  end.

(** [<] on pairs: the first components decide unless they are equal. *)
Definition key_lt (a b : value * value) : outcome bool :=
  if value_eq (fst a) (fst b) then value_lt (snd a) (snd b)
  else value_lt (fst a) (fst b).

Definition keyed := ((value * value) * value)%type.

Fixpoint insert_keyed (x : keyed) (l : list keyed) : outcome (list keyed) :=
  match l with
  | [] => Ok [x]
  | y :: l' =>
      b <- key_lt (fst y) (fst x) ;;
      if b then (r <- insert_keyed x l' ;; Ok (y :: r))
      else Ok (x :: y :: l')
  end.

Fixpoint sort_keyed (l : list keyed) : outcome (list keyed) :=
  match l with
  | [] => Ok []
  | x :: l' => r <- sort_keyed l' ;; insert_keyed x r
  end.

Fixpoint with_keys (l : list value) : outcome (list keyed) :=
  match l with
  | [] => Ok []
  | x :: l' => k <- sort_key x ;; r <- with_keys l' ;; Ok ((k, x) :: r)
  end.

(** [l.sort(key=lambda x: (x['numeric_price'], -x['numeric_rating']))] on
    the content of a list object. *)
Definition sort_by_key (l : list value) : outcome (list value) :=
  ks <- with_keys l ;;
  r <- sort_keyed ks ;;
  Ok (map snd r).

Section Session.
(** [DroidAgent is not None]: whether the import of droidrun worked. *)
Variable droidrun_available : bool.
(** Building the agent for a goal and awaiting [agent.run()]: the text
    [str(output)] of what it returns, or the fault it raises. *)
Variable agent_run : string -> outcome string.
(** [json.loads] *)
Variable json_loads : string -> outcome value.
(** [str()] of an object that is not a string. *)
Variable repr : value -> string.

Definition str_value (v : value) : outcome string :=
  match v with
  | VStr s => Ok s
  | _ => Ok (repr v)
  end.

Definition task_goal (app_name query item_type : string) : string :=
  "Open " ++ app_name ++ ". Search for '" ++ query ++ "'. "
  ++ "Look at the search results and find the best " ++ item_type ++ "s. "
  ++ "Return a JSON list of the top 3 items with keys: title, price, rating. "
  ++ "The output must be a valid JSON string.".

(** Lines 79-83: the interior of a fenced block, or the text itself. *)
Definition strip_fence (json_str : string) : outcome string :=
  if contains "```json" json_str then
    a <- getitem_list (split "```json" json_str) 1 ;;
    b <- getitem_list (split "```" a) 0 ;;
    Ok (strip b)
  else if contains "```" json_str then
    a <- getitem_list (split "```" json_str) 1 ;;
    b <- getitem_list (split "```" a) 0 ;;
    Ok (strip b)
  else Ok json_str.

(** Lines 92-93: the two assignments on one candidate. *)
Definition normalise (item : value) : outcome value :=
  p <- get_method item "price" (VStr "999999") ;;
  item1 <- setitem item "numeric_price" (VFloat (parse_price str_value p)) ;;
  r <- get_method item1 "rating" (VStr "0") ;;
  setitem item1 "numeric_rating" (VFloat (parse_rating str_value r)).

(** [x > 0] *)
Definition positive (x : value) : outcome bool :=
  match x with
  | VFloat f => Ok (flt zero f)
  | _ => Raise (Exn TypeError "'>' not supported")
  end.

(** Lines 91-95: the loop, appending to the list object [valid_items]. *)
Fixpoint collect (valid_items : loc) (items : list value) : M frame unit :=
  match items with
  | [] => ret tt
  | item :: rest =>
      item' <~ lift (normalise item) ;;
      np <~ lift (subscript item' "numeric_price") ;;
      keep <~ lift (positive np) ;;
      _ <~ (if keep : bool
            then modify (on_world (fun w =>
                   store valid_items (deref valid_items w ++ [item']) w))
            else ret tt) ;;
      collect valid_items rest
  end.

(** Lines 79-102: the body of the [try] block. *)
Definition try_block (output : string) : M frame unit :=
  let json_str := strip output in
  json_str <~ lift (strip_fence json_str) ;;
  if startswith "[" json_str || startswith "{" json_str then
    decoded <~ lift (json_loads json_str) ;;
    let decoded := if isinstance_dict decoded then VList [decoded]
                   else decoded in
    items <~ lift (iterate decoded) ;;
    valid_items <~ (fun fr => let '(p, w) := alloc [] (fr_world fr) in
                              (Ok p, Frame w (fr_result fr))) ;;
    _ <~ collect valid_items items ;;
    _ <~ modify (on_result (set_items valid_items)) ;;
    _ <~ modify (on_result (set_status "success")) ;;
    fr <~ get ;;
    match deref valid_items (fr_world fr) with
    | [] => ret tt
    | _ :: _ =>
        sorted <~ lift (sort_by_key (deref valid_items (fr_world fr))) ;;
        _ <~ modify (on_world (store valid_items sorted)) ;;
        fr <~ get ;;
        first <~ lift (getitem_list (deref valid_items (fr_world fr)) 0) ;;
        modify (on_result (set_best_item first))
    end
  else ret tt.

(** Lines 67-107: the result is built as failed, the [try] block fills
    it in, and [except Exception] only prints. *)
Definition parse_result (app_name output : string) (w : world)
  : result_data * world :=
  let '(empty, w) := alloc [] w in
  let result := ResultData app_name "failed" empty VNone output in
  let '(_, fr) := try_block output (Frame w result) in
  (fr_result fr, fr_world fr).

Definition perform_search (app_name query item_type : string) (w : world)
  : outcome result_data * world :=
  if negb droidrun_available then
    (Raise (Exn ImportError "droidrun library not found. Please install it."),
     w)
  else
    let w := emit (SessionBegin app_name) w in
    match agent_run (task_goal app_name query item_type) with
    | Raise e => (Raise e, emit (SessionEnd app_name) w)
    | Ok output =>
        let '(r, w) := parse_result app_name output
                         (emit (SessionEnd app_name) w) in
        (Ok r, w)
    end.

(** *** The command-line workflow *)

Inductive task := Shopping | Food.

Definition task_name (t : task) : string :=
  match t with Shopping => "shopping" | Food => "food" end.

Definition platforms_of (t : task) : list string * string :=
  match t with
  | Shopping => (["Amazon"; "Flipkart"], "product")
  | Food => (["Zomato"; "Swiggy"], "food")
  end.

Definition results := list (string * result_data).

Fixpoint results_lookup (k : string) (d : results) : option result_data :=
  match d with
  | (k', v) :: d' => if String.eqb k k' then Some v else results_lookup k d'
  | [] => None
  end.

Fixpoint results_set (k : string) (v : result_data) (d : results) : results :=
  match d with
  | (k', v') :: d' =>
      if String.eqb k k' then (k', v) :: d' else (k', v') :: results_set k v d'
  | [] => [(k, v)]
  end.

(** Lines 131-133 *)
Fixpoint run_platforms (platforms : list string) (query item_type : string)
    (acc : results) (w : world) : outcome results * world :=
  match platforms with
  | [] => (Ok acc, w)
  | plat :: rest =>
      match perform_search plat query item_type w with
      | (Raise e, w') => (Raise e, w')
      | (Ok res, w') =>
          run_platforms rest query item_type
            (results_set (lower plat) res acc) w'
      end
  end.

(** [results.get(key, {}).get('best_item')] *)
Definition best_item_of (d : results) (key : string) : value :=
  match results_lookup key d with
  | Some r => best_item r
  | None => VNone
  end.

(** Lines 139-161: [(best_platform, recommendation)]. *)
Definition choose_winner (platform0 platform1 : string) (param1 param2 : value)
  : outcome (option string * string) :=
  if truthy param1 && truthy param2 then
    p1 <- subscript param1 "numeric_price" ;;
    p2 <- subscript param2 "numeric_price" ;;
    c <- value_lt p1 p2 ;;
    if c : bool then Ok (Some platform0, platform0 ++ " is cheaper.")
    else
      p2 <- subscript param2 "numeric_price" ;;
      p1 <- subscript param1 "numeric_price" ;;
      c <- value_lt p2 p1 ;;
      if c : bool then Ok (Some platform1, platform1 ++ " is cheaper.")
      else
        r1 <- subscript param1 "numeric_rating" ;;
        r2 <- subscript param2 "numeric_rating" ;;
        c <- value_lt r2 r1 ;;
        if c : bool
        then Ok (Some platform0,
                 "Prices equal, but " ++ platform0 ++ " has better rating.")
        else Ok (Some platform1,
                 "Prices equal, but " ++ platform1 ++ " has better rating.")
  else if truthy param1 then
    Ok (Some platform0, "Only found on " ++ platform0 ++ ".")
  else if truthy param2 then
    Ok (Some platform1, "Only found on " ++ platform1 ++ ".")
  else Ok (None, "No valid items found.").

Record final_output := FinalOutput {
  query_of : string;
  category : string;
  winner_platform : option string;
  recommendation : string;
  details : results
}.

Definition main_async (t : task) (query : string) (w : world)
  : outcome final_output * world :=
  let '(platforms, item_type) := platforms_of t in
  match run_platforms platforms query item_type [] w with
  | (Raise e, w') => (Raise e, w')
  | (Ok res, w') =>
      (p0 <- getitem_list platforms 0 ;;
       p1 <- getitem_list platforms 1 ;;
       let param1 := best_item_of res (lower p0) in
       let param2 := best_item_of res (lower p1) in
       v <- choose_winner p0 p1 param1 param2 ;;
       Ok (FinalOutput query (task_name t) (fst v) (snd v) res),
       w')
  end.
End Session.

End CommerceAgent.

(** ** event_coordinator_agent.py *)

Module EventCoordinator.

Import Py.
Local Open Scope string_scope.

Section Coordinator.
(** Lines 53-64: [load_llm], [DroidrunConfig] and [DroidAgent(goal, ...)]. *)
Variable make_agent : string -> outcome unit.
(** [await agent.run()] for a goal. *)
Variable agent_run : string -> outcome string.
(** [CommerceAgent.execute_task(app, item, item_type, action)] and
    [RideComparisonAgent.book_cheapest_ride(pickup, drop)]; both classes
    are outside the repository. *)
Variable execute_task : string -> string -> string -> string -> outcome value.
Variable book_cheapest_ride : value -> value -> outcome value.
(** [str()] of an object that is not a string. *)
Variable repr : value -> string.

Definition fmt (v : value) : string :=
  match v with VStr s => s | _ => repr v end.

Definition whatsapp_goal (phone_name message : string) : string :=
  "Open WhatsApp. Tap the 'New Chat' or Search icon. "
  ++ "Search for contact '" ++ phone_name ++ "'. "
  ++ "Click on the contact to open chat. "
  ++ "Type the message: '" ++ message ++ "'. "
  ++ "Click Send. Return success status.".

(** [_run_whatsapp_task]: the run of the agent is inside a [try]. *)
Definition run_whatsapp_task (phone_name message : string) : outcome bool :=
  let goal := whatsapp_goal phone_name message in
  _ <- make_agent goal ;;
  match agent_run goal with
  | Ok _ => Ok true
  | Raise _ => Ok false
  end.

Definition invite_message (event_details : string) : string :=
  "Hey! You are invited to " ++ event_details
  ++ ". Please reply with your food preference (Veg/Non-Veg) and if you need a cab pickup.".

Fixpoint invite_guests (guest_list : list value) (event_details : string)
  : outcome unit :=
  match guest_list with
  | [] => Ok tt
  | guest :: rest =>
      name <- subscript guest "name" ;;
      _ <- run_whatsapp_task (fmt name) (invite_message event_details) ;;
      invite_guests rest event_details
  end.

Definition collect_preferences_and_build_menu : list string :=
  ["Butter Chicken"; "Garlic Naan"; "Paneer Tikka"; "Coke"].

Fixpoint order_food (menu : list string) : outcome unit :=
  match menu with
  | [] => Ok tt
  | item :: rest =>
      _ <- execute_task "Swiggy" item "food" "order" ;;
      order_food rest
  end.

Fixpoint coordinate_logistics (guest_needs : list value) : outcome unit :=
  match guest_needs with
  | [] => Ok tt
  | req :: rest =>
      _ <- subscript req "name" ;;
      pickup <- subscript req "pickup" ;;
      drop <- subscript req "drop" ;;
      _ <- book_cheapest_ride pickup drop ;;
      coordinate_logistics rest
  end.

Definition orchestrate_event (event_name : value) (guests : list value)
    (logistics_reqs : list value) : outcome unit :=
  _ <- invite_guests guests (fmt event_name) ;;
  let menu := collect_preferences_and_build_menu in
  _ <- order_food menu ;;
  coordinate_logistics logistics_reqs.
End Coordinator.

End EventCoordinator.

(** ** server.py *)

Module Server.

Import Py.
Local Open Scope string_scope.

Definition websocket := nat.

(** The texts that [run_agent_task] broadcasts, by their fixed opening:
    "Starting Executor for Persona: ...", a progress line,
    "Task Complete. Result: ...", "Task Failed or Returned No Data." and
    "Error: ...". *)
Inductive notice :=
| Starting (persona : string)
| Progress (text : string)
| TaskComplete (result_json : string)
| TaskFailedNoData
| ErrorNotice (text : string).

(** The last three close a task. *)
Definition is_terminal (n : notice) : bool :=
  match n with
  | TaskComplete _ | TaskFailedNoData | ErrorNotice _ => true
  | Starting _ | Progress _ => false
  end.

(** The manager's list, the frames the sockets took so far, and the
    notices handed to [broadcast] so far. *)
Record server := ServerState {
  active_connections : list websocket;
  wire : list (websocket * notice);
  announced : list notice
}.

Fixpoint remove_first (x : websocket) (l : list websocket) : list websocket :=
  match l with
  | [] => []
  | y :: l' => if Nat.eqb x y then l' else y :: remove_first x l'
  end.

Section Transport.
(** [websocket.accept()] *)
Variable accept : websocket -> outcome unit.
(** Whether a socket takes a frame: [websocket.send_text] returns, or
    raises on a socket that is gone. *)
Variable link : websocket -> notice -> outcome unit.

Definition connect (ws : websocket) : M server unit :=
  fun st =>
    match accept ws with
    | Raise e => (Raise e, st)
    | Ok _ =>
        (Ok tt, ServerState (active_connections st ++ [ws]) (wire st)
                            (announced st))
    end.

(** [list.remove(x)] raises when [x] is not in the list. *)
Definition disconnect (ws : websocket) : M server unit :=
  fun st =>
    if existsb (Nat.eqb ws) (active_connections st) then
      (Ok tt, ServerState (remove_first ws (active_connections st)) (wire st)
                          (announced st))
    else (Raise (Exn ValueError "list.remove(x): x not in list"), st).

Definition send_text (ws : websocket) (message : notice)
    (w : list (websocket * notice)) : outcome unit * list (websocket * notice) :=
  match link ws message with
  | Ok _ => (Ok tt, (w ++ [(ws, message)])%list)
  | Raise e => (Raise e, w)
  end.

(** The loop of [broadcast]: a fault of [send_text] is passed over. *)
Fixpoint send_all (conns : list websocket) (message : notice)
    (w : list (websocket * notice)) : list (websocket * notice) :=
  match conns with
  | [] => w
  | connection :: rest =>
      match send_text connection message w with
      | (Ok _, w') => send_all rest message w'
      | (Raise _, w') => send_all rest message w'
      end
  end.

Definition broadcast (message : notice) : M server unit :=
  fun st =>
    (Ok tt, ServerState (active_connections st)
                        (send_all (active_connections st) message (wire st))
                        (announced st ++ [message])).

(** *** Tasks *)

Record TaskPayload := Payload {
  persona : string;
  product : value;
  pickup : value;
  drop_ : value;
  medicine : value;
  event_name : value;
  guest_list : list value
}.

(** The agent classes of the other modules, by what their calls yield. *)
Variable new_commerce_agent : outcome unit.
Variable commerce_execute_task : string -> value -> string -> outcome value.
Variable new_ride_agent : outcome unit.
Variable compare_rides : value -> value -> outcome value.
Variable new_pharmacy_agent : outcome unit.
Variable compare_prices : value -> string -> outcome value.
(** [EventCoordinatorAgent(model=...)] and what its methods call. *)
Variable new_coordinator_agent : outcome unit.
Variable make_agent : string -> outcome unit.
Variable agent_run : string -> outcome string.
Variable order_task : string -> string -> string -> string -> outcome value.
Variable book_cheapest_ride : value -> value -> outcome value.
(** [json.dumps(result, default=str)] *)
Variable json_dumps : value -> outcome string.
(** [str()] of an object that is not a string. *)
Variable repr : value -> string.

Definition fmt (v : value) : string :=
  match v with VStr s => s | _ => repr v end.

Definition orchestrate_event : value -> list value -> list value -> outcome unit :=
  EventCoordinator.orchestrate_event make_agent agent_run order_task
    book_cheapest_ride repr.

(** [x == 'failed'] *)
Definition eq_str (x : value) (s : string) : bool :=
  match x with VStr s' => String.eqb s' s | _ => false end.

Definition failed_status : value := VDict [("status", VStr "failed")].

(** Lines 87-124: the dispatch on the persona; [result] starts as [None]. *)
Definition dispatch (payload : TaskPayload) : M server value :=
  if String.eqb (persona payload) "shopper" then
    _ <~ lift new_commerce_agent ;;
    _ <~ broadcast (Progress ("Searching for " ++ fmt (product payload)
                              ++ " on Amazon/Flipkart...")) ;;
    result <~ lift (commerce_execute_task "Amazon" (product payload) "product") ;;
    st <~ lift (subscript result "status") ;;
    if eq_str st "failed" then
      _ <~ broadcast (Progress "Amazon failed, trying Flipkart...") ;;
      lift (commerce_execute_task "Flipkart" (product payload) "product")
    else ret result
  else if String.eqb (persona payload) "rider" then
    _ <~ lift new_ride_agent ;;
    _ <~ broadcast (Progress ("Comparing rides from " ++ fmt (pickup payload)
                              ++ " to " ++ fmt (drop_ payload) ++ "...")) ;;
    full_res <~ lift (compare_rides (pickup payload) (drop_ payload)) ;;
    lift (get_method full_res "best_deal" failed_status)
  else if String.eqb (persona payload) "patient" then
    _ <~ lift new_pharmacy_agent ;;
    _ <~ broadcast (Progress ("Searching for medicine: "
                              ++ fmt (medicine payload) ++ "...")) ;;
    full_res <~ lift (compare_prices (medicine payload) "patient") ;;
    lift (get_method full_res "best_option" failed_status)
  else if String.eqb (persona payload) "coordinator" then
    _ <~ lift new_coordinator_agent ;;
    _ <~ broadcast (Progress ("Orchestrating Event: "
                              ++ fmt (event_name payload))) ;;
    _ <~ lift (orchestrate_event (event_name payload) (guest_list payload) []) ;;
    ret (VDict [("status", VStr "success");
                 ("message", VStr "Event Orchestration Complete")])
  else ret VNone.

(** Lines 86-130: the [try] block. *)
Definition task_body (payload : TaskPayload) : M server unit :=
  result <~ dispatch payload ;;
  if truthy result then
    text <~ lift (json_dumps result) ;;
    broadcast (TaskComplete text)
  else broadcast TaskFailedNoData.

Definition run_agent_task (payload : TaskPayload) : M server unit :=
  _ <~ broadcast (Starting (persona payload)) ;;
  fun st =>
    match task_body payload st with
    | (Ok _, st') => (Ok tt, st')
    | (Raise e, st') => broadcast (ErrorNotice (exn_text e)) st'
    end.

(** *** The event loop

    [create_task] hands the coroutine [run_agent_task(payload)] to the
    event loop with [asyncio.create_task] and answers at once.  A task
    of the loop is kept by where its coroutine stands: not awaiting an
    agent ([Ready]: created, or between two sessions), suspended in
    [await agent....] with a session on the device ([InSession]), or
    done. *)








End Transport.

End Server.


(** ** Reading results

    The notions the properties are stated with, and the sample inputs they
    are tried on. *)

Module Reading.

Import Py CommerceAgent.
Local Open Scope string_scope.

(** The numbers stored in an item; NaN stands for a missing one. *)
Definition numeric_price (x : value) : float :=
  match subscript x "numeric_price" with
  | Ok (VFloat f) => f
  | _ => S754_nan
  end.

Definition numeric_rating (x : value) : float :=
  match subscript x "numeric_rating" with
  | Ok (VFloat f) => f
  | _ => S754_nan
  end.

(** [a] may stand before [b]: cheaper, or as cheap and rated no lower. *)
Definition ranks_before (a b : value) : Prop :=
  flt (numeric_price a) (numeric_price b) = true \/
  (feq (numeric_price a) (numeric_price b) = true /\
   fle (numeric_rating b) (numeric_rating a) = true).


(** An item with the key that the sort computes for it. *)
Definition keyed_of (x : value) : keyed :=
  ((VFloat (numeric_price x), VFloat (fneg (numeric_rating x))), x).

(** An item as the normalisation loop leaves it. *)
Definition is_item (x : value) : Prop :=
  exists d p r,
    x = VDict d /\
    dict_lookup "numeric_price" d = Some (VFloat p) /\
    dict_lookup "numeric_rating" d = Some (VFloat r) /\
    is_nan p = false /\ is_nan r = false.


(** The items a returned result refers to. *)
Definition returned_items (r : result_data) (w : world) : list value :=
  deref (items r) w.

Definition newline : string := String (ascii_of_nat 10) EmptyString.
Definition dq : string := String (ascii_of_nat 34) EmptyString.
Definition quoted (s : string) : string := dq ++ s ++ dq.

(** A text inside a fenced block tagged json. *)
Definition fenced (t : string) : string :=
  "```json" ++ newline ++ t ++ newline ++ "```".

Section Loop.
Variable repr : value -> string.

(** One round of the loop of [perform_search] without the store: the
    item to append, if any. *)
Definition classify (item : value) : outcome (option value) :=
  item' <- normalise repr item ;;
  np <- subscript item' "numeric_price" ;;
  keep <- positive np ;;
  Ok (if keep : bool then Some item' else None).

(** The whole loop: how it ends and what it appended until then. *)
Fixpoint collected (items : list value) : outcome unit * list value :=
  match items with
  | [] => (Ok tt, [])
  | item :: rest =>
      match classify item with
      | Raise e => (Raise e, [])
      | Ok o =>
          let '(r, l) := collected rest in
          (r, match o with Some x => x :: l | None => l end)
      end
  end.

Variable json_loads : string -> outcome value.

(** The output holds a list of objects: after the fence is taken off the
    text opens a list or an object, [json.loads] accepts it, and every
    candidate of the decoded list is an object. *)
Definition decodes_to (output : string) (candidates : list value) : Prop :=
  exists js v,
    strip_fence (strip output) = Ok js /\
    startswith "[" js || startswith "{" js = true /\
    json_loads js = Ok v /\
    iterate (if isinstance_dict v then VList [v] else v) = Ok candidates /\
    forallb isinstance_dict candidates = true.
End Loop.

(** *** Samples *)

Definition empty_world : world := World [] [].


Definition two_items_text : string :=
  "[{" ++ quoted "title" ++ ":" ++ quoted "A" ++ ","
       ++ quoted "price" ++ ":" ++ quoted "$20" ++ ","
       ++ quoted "rating" ++ ":" ++ quoted "4.0" ++ "},{"
       ++ quoted "title" ++ ":" ++ quoted "B" ++ ","
       ++ quoted "price" ++ ":" ++ quoted "$10" ++ ","
       ++ quoted "rating" ++ ":" ++ quoted "4.5 stars" ++ "}]".

Definition two_items : value :=
  VList [VDict [("title", VStr "A"); ("price", VStr "$20"); ("rating", VStr "4.0")];
         VDict [("title", VStr "B"); ("price", VStr "$10");
                ("rating", VStr "4.5 stars")]].

(** The text of the first scenario of the design, and what it decodes to. *)
Definition phone_text : string :=
  "[{" ++ quoted "title" ++ ":" ++ quoted "Phone" ++ ","
       ++ quoted "price" ++ ":" ++ quoted "$199.99" ++ ","
       ++ quoted "rating" ++ ":" ++ quoted "4.5 stars" ++ "}]".

Definition phone : value :=
  VList [VDict [("title", VStr "Phone"); ("price", VStr "$199.99");
                ("rating", VStr "4.5 stars")]].

(** A best item with the numbers that two texts parse to. *)
Definition item_of (price rating : string) : value :=
  VDict [("numeric_price", VFloat (parse_price str_of_str price));
         ("numeric_rating", VFloat (parse_rating str_of_str rating))].

(** An item list whose one title holds a fenced empty list. *)
Definition backticks_text : string :=
  "[{" ++ quoted "title" ++ ": " ++ quoted "```[]```" ++ "}]".

(** [json.loads] on the texts of the samples: the four that are JSON, and
    a fault on every other one (among them the cut texts that the samples
    lead to, which are not JSON). *)
Definition sample_loads (s : string) : outcome value :=
  if String.eqb s "[]" then Ok (VList [])
  else if String.eqb s "[1]" then Ok (VList [VInt 1])
  else if String.eqb s two_items_text then Ok two_items
  else if String.eqb s phone_text then Ok phone
  else Raise (Exn JSONDecodeError "Expecting value").

(** [str()] of the objects that are not strings; the samples hold strings
    only where it matters, so only the class of the object is told. *)
Definition sample_repr (v : value) : string :=
  match v with
  | VNone => "None"
  | VBool true => "True"
  | VBool false => "False"
  | _ => "<object>"
  end.


(** How many of the notices close a task. *)
Definition terminal_count (l : list Server.notice) : nat :=
  List.length (filter Server.is_terminal l).

(** A transport on which socket 2 is gone, and a task. *)
Definition sample_accept (ws : Server.websocket) : outcome unit := Ok tt.

Definition sample_link (ws : Server.websocket) (n : Server.notice)
  : outcome unit :=
  if Nat.eqb ws 2 then Raise (Exn RuntimeError "socket closed") else Ok tt.

Definition idle_server : Server.server := Server.ServerState [] [] [].

Definition sample_payload : Server.TaskPayload :=
  Server.Payload "shopper" (VStr "phone") VNone VNone VNone VNone [].

(** The commerce agent of the server finds nothing on Amazon and one
    phone on Flipkart. *)
Definition sample_execute_task (app : string) (query : value)
    (item_type : string) : outcome value :=
  if String.eqb app "Amazon" then Ok (VDict [("status", VStr "failed")])
  else Ok (VDict [("status", VStr "success"); ("platform", VStr app)]).

Definition sample_dumps (v : value) : outcome string := Ok (sample_repr v).

(** An agent whose every session faults, and one that answers. *)
Definition faulty_agent (goal : string) : outcome string :=
  Raise (Exn RuntimeError "device offline").

Definition sample_agent (goal : string) : outcome string :=
  if contains "Amazon" goal then Ok two_items_text else Ok (fenced "[]").

End Reading.

(** ** Further notions

    What the further properties of the three files are stated with. *)

Module Notions.

Import Py CommerceAgent Reading.
Local Open Scope string_scope.

(** A string without the occurrences of one character. *)
Fixpoint remove_char (c : ascii) (s : string) : string :=
  match s with
  | String d s' =>
      if Ascii.eqb c d then remove_char c s' else String d (remove_char c s')
  | EmptyString => EmptyString
  end.

Fixpoint all_digits (s : string) : bool :=
  match s with
  | String c s' => is_digit c && all_digits s'
  | EmptyString => true
  end.

Fixpoint all_space (s : string) : bool :=
  match s with
  | String c s' => is_space c && all_space s'
  | EmptyString => true
  end.

(** The text does not go on with a digit. *)
Definition no_digit_ahead (rest : string) : bool :=
  match rest with
  | String c _ => negb (is_digit c)
  | EmptyString => true
  end.

(** The text goes on neither with a digit nor with a dot and a digit. *)
Definition no_numeral_ahead (rest : string) : bool :=
  match rest with
  | String c rest' =>
      negb (is_digit c)
      && negb (Ascii.eqb c "."%char && negb (no_digit_ahead rest'))
  | EmptyString => true
  end.

(** What the loop of [perform_search] keeps of the candidates: each one
    with its two numbers set, those with a price above zero, in the order
    of the list. *)
Definition kept (repr : value -> string) (l : list value) : list value :=
  flat_map (fun c => match normalise repr c with
                     | Ok x => if flt zero (numeric_price x) then [x] else []
                     | Raise _ => []
                     end) l.

(** [item.get(k, default)] on the pairs of a dictionary. *)
Definition field (k : string) (default : value) (d : dict) : value :=
  match dict_lookup k d with Some v => v | None => default end.

(** A lone JSON object and a decoder that knows it. *)
Definition object_text : string :=
  "{" ++ quoted "price" ++ ":" ++ quoted "Rs. 1,299" ++ "}".

Definition object_loads (s : string) : outcome value :=
  if String.eqb s object_text then Ok (VDict [("price", VStr "Rs. 1,299")])
  else Raise (Exn JSONDecodeError "Expecting value").

(** The notices that one socket took, oldest first. *)
Definition inbox (ws : Server.websocket)
    (w : list (Server.websocket * Server.notice)) : list Server.notice :=
  map snd (filter (fun f => Nat.eqb (fst f) ws) w).

(** The frames that one broadcast puts on the wire. *)
Definition frames (link : Server.websocket -> Server.notice -> outcome unit)
    (conns : list Server.websocket) (n : Server.notice)
  : list (Server.websocket * Server.notice) :=
  map (fun ws => (ws, n)) (filter (fun ws => returns (link ws n)) conns).

(** How often a socket stands in the registry. *)
Definition registered (ws : Server.websocket) (conns : list Server.websocket)
  : nat :=
  count_occ Nat.eq_dec conns ws.

(** From [st] to [st'] the notices [ns] were broadcast and nothing else
    happened: the registry is the same, and each notice went, in turn, to
    the sockets that took it. *)
Definition delivered (link : Server.websocket -> Server.notice -> outcome unit)
    (st st' : Server.server) (ns : list Server.notice) : Prop :=
  Server.active_connections st' = Server.active_connections st /\
  Server.announced st' = (Server.announced st ++ ns)%list /\
  Server.wire st'
  = (Server.wire st
     ++ flat_map (frames link (Server.active_connections st)) ns)%list.

(** A computation of the server that only broadcasts. *)
Definition broadcasts_only {A}
    (link : Server.websocket -> Server.notice -> outcome unit)
    (m : M Server.server A) : Prop :=
  forall st, exists ns, delivered link st (snd (m st)) ns.

(** Lines 127-134: the notice that closes a task, by how the dispatch
    ended. *)
Definition closing (json_dumps : value -> outcome string)
    (result : outcome value) : Server.notice :=
  match result with
  | Ok r =>
      if truthy r then
        match json_dumps r with
        | Ok text => Server.TaskComplete text
        | Raise e => Server.ErrorNotice (exn_text e)
        end
      else Server.TaskFailedNoData
  | Raise e => Server.ErrorNotice (exn_text e)
  end.

End Notions.

(** ** server.py: the websocket endpoint *)

Module Endpoint.

Import Py Server.

(** What one [await websocket.receive_text()] brings: a text, the fault
    [WebSocketDisconnect], or another fault. *)
Inductive received :=
| Text (s : string)
| Disconnect
| Fault (e : exn).

(** Where the handler stands after the events so far: suspended in
    [receive_text], or returned. *)
Inductive endpoint_state := Waiting | Returned.

(** Lines 70-75: texts only keep the loop alive; [WebSocketDisconnect]
    and nothing else is caught, and the handler then removes the socket. *)
Fixpoint receive_loop (ws : websocket) (events : list received)
  : M server endpoint_state :=
  match events with
  | [] => ret Waiting
  | Text _ :: rest => receive_loop ws rest
  | Disconnect :: _ => _ <~ disconnect ws ;; ret Returned
  | Fault e :: _ => lift (Raise e)
  end.

Definition websocket_endpoint (accept : websocket -> outcome unit)
    (ws : websocket) (events : list received) : M server endpoint_state :=
  _ <~ connect accept ws ;; receive_loop ws events.

End Endpoint.
(** * Facts about the runtime notions *)

Module PyFacts.

Import Py.
Local Open Scope string_scope.

(** ** Strings *)

Lemma append_nil_r (s : string) : s ++ "" = s.
Proof. induction s; simpl; congruence. Qed.

Lemma append_assoc (a b c : string) : (a ++ b) ++ c = a ++ b ++ c.
Proof. induction a; simpl; congruence. Qed.

Lemma length_append (a b : string) : length (a ++ b) = (length a + length b)%nat.
Proof. induction a; simpl; congruence. Qed.

Lemma prefix_append (p s : string) : prefix p (p ++ s) = true.
Proof.
  induction p as [|c p IH]; simpl.
  - now destruct s.
  - destruct (ascii_dec c c); [exact IH | congruence].
Qed.

Lemma prefix_inv (p s : string) :
  prefix p s = true -> s = p ++ drop (length p) s.
Proof.
  revert s; induction p as [|c p IH]; intros s H; simpl.
  - now destruct s.
  - destruct s as [|d s]; simpl in H; [discriminate|].
    destruct (ascii_dec c d); [subst d | discriminate].
    simpl. f_equal. now apply IH.
Qed.

Lemma take_drop (n : nat) (s : string) : take n s ++ drop n s = s.
Proof.
  revert s; induction n as [|n IH]; intros [|c s]; simpl; try reflexivity.
  now rewrite IH.
Qed.

Lemma drop_drop (n m : nat) (s : string) : drop n (drop m s) = drop (m + n) s.
Proof.
  revert s; induction m as [|m IH]; intros s; simpl; [reflexivity|].
  destruct s; simpl; [now destruct n | apply IH].
Qed.

Lemma length_drop (n : nat) (s : string) : length (drop n s) = (length s - n)%nat.
Proof.
  revert s; induction n as [|n IH]; intros [|c s]; simpl; auto.
Qed.


Lemma find_eq (sub s : string) :
  find sub s =
  if prefix sub s then Some 0%nat
  else match s with
       | String _ s' => option_map S (find sub s')
       | EmptyString => None
       end.
Proof. now destruct s. Qed.


Lemma find_some_prefix (sub s : string) (i : nat) :
  find sub s = Some i -> prefix sub (drop i s) = true.
Proof.
  revert i; induction s as [|c s IH]; intros i; rewrite find_eq.
  - destruct (prefix sub "") eqn:P; [|now intros]. now intros [= <-].
  - destruct (prefix sub (String c s)) eqn:P.
    + now intros [= <-].
    + destruct (find sub s) as [j|] eqn:F; simpl; [|now intros].
      intros [= <-]. simpl. now apply IH.
Qed.

Lemma find_none_prefix (sub s : string) (i : nat) :
  find sub s = None -> prefix sub (drop i s) = false.
Proof.
  revert i; induction s as [|c s IH]; intros i; rewrite find_eq.
  - destruct (prefix sub "") eqn:P; [now intros|]. now destruct i.
  - destruct (prefix sub (String c s)) eqn:P; [now intros|].
    destruct (find sub s) eqn:F; simpl; [now intros|]. intros _.
    destruct i; simpl; [exact P | now apply IH].
Qed.

Lemma find_some_bound (sub s : string) (i : nat) :
  find sub s = Some i -> (i + length sub <= length s)%nat.
Proof.
  intros H.
  pose proof (find_some_prefix _ _ H) as P.
  apply prefix_inv in P. apply (f_equal length) in P.
  rewrite length_append, !length_drop in P.
  destruct sub as [|c sub]; simpl in *; [|lia].
  clear P. destruct s; simpl in H; injection H as <-; simpl; lia.
Qed.





Lemma space_not_digit (c : ascii) : is_space c = true -> is_digit c = false.
Proof.
  destruct c as [[] [] [] [] [] [] [] []]; vm_compute; congruence.
Qed.




(** ** The regular expression *)

Lemma match_numeral_none (s : string) :
  match_numeral s = None <->
  match s with String c _ => is_digit c = false | EmptyString => True end.
Proof.
  unfold match_numeral. destruct s as [|c s]; simpl; [tauto|].
  destruct (is_digit c) eqn:D.
  - destruct (span_digits s) as [ds rest].
    split; [|discriminate].
    destruct rest as [|d rest]; [discriminate|].
    destruct d as [[] [] [] [] [] [] [] []]; try discriminate.
    destruct (span_digits rest) as [[|f fs] ?]; discriminate.
  - tauto.
Qed.

Lemma search_numeral_none (s : string) :
  search_numeral s = None <-> has_digit s = false.
Proof.
  induction s as [|c s IH]; simpl.
  - unfold match_numeral; simpl. tauto.
  - destruct (match_numeral (String c s)) eqn:Mt.
    + split; [discriminate|]. intros H.
      apply orb_false_iff in H. destruct H as [H _].
      assert (N : match_numeral (String c s) = None)
        by (apply match_numeral_none; exact H).
      congruence.
    + apply match_numeral_none in Mt. rewrite Mt. simpl. exact IH.
Qed.

(** ** Floats *)

Lemma iter_pos_inv {A : Type} (P : A -> Prop) (f : A -> A) :
  (forall x, P x -> P (f x)) ->
  forall n x, P x -> P (iter_pos f n x).
Proof.
  intros Hf. induction n as [n IH|n IH|]; intros x Hx; simpl; auto.
Qed.

Lemma shr_1_nonneg (r : shr_record) :
  (0 <= shr_m r)%Z -> (0 <= shr_m (shr_1 r))%Z.
Proof.
  destruct r as [m r s]; simpl.
  destruct m as [|[p|p|]|p]; simpl; lia.
Qed.

Lemma shr_nonneg (r : shr_record) (e n : Z) :
  (0 <= shr_m r)%Z -> (0 <= shr_m (fst (shr r e n)))%Z.
Proof.
  intros H. destruct n; simpl; auto.
  apply (iter_pos_inv (fun r => 0 <= shr_m r)%Z); auto using shr_1_nonneg.
Qed.

Lemma shr_fexp_nonneg (prec emax m e : Z) (l : location) :
  (0 <= m)%Z -> (0 <= shr_m (fst (shr_fexp prec emax m e l)))%Z.
Proof.
  intros H. unfold shr_fexp. apply shr_nonneg.
  destruct l as [|[]]; exact H.
Qed.

Lemma round_nearest_even_nonneg (m : Z) (l : location) :
  (0 <= m)%Z -> (0 <= round_nearest_even m l)%Z.
Proof.
  intros H. destruct l as [|[]]; simpl; try lia.
  destruct (Z.even m); lia.
Qed.

(** Rounding a non-negative mantissa gives a number with the sign asked
    for, never a NaN. *)
Lemma binary_round_aux_sign (prec emax : Z) (s : bool) (m e : Z) (l : location) :
  (0 <= m)%Z ->
  is_nan (binary_round_aux prec emax s m e l) = false /\
  sign_bit (binary_round_aux prec emax s m e l) = s.
Proof.
  intros H. unfold binary_round_aux.
  pose proof (shr_fexp_nonneg prec emax e l H) as H1.
  destruct (shr_fexp prec emax m e l) as [r1 e1]; simpl in H1.
  pose proof (round_nearest_even_nonneg (loc_of_shr_record r1) H1) as H2.
  pose proof (shr_fexp_nonneg prec emax e1 loc_Exact H2) as H3.
  destruct (shr_fexp prec emax _ e1 loc_Exact) as [r2 e2]; simpl in H3.
  destruct (shr_m r2) as [|p|p]; simpl; [auto| |lia].
  destruct (e2 <=? emax - prec)%Z; auto.
Qed.

Lemma SFdiv_core_binary_nonneg (prec emax : Z) (m1 m2 : positive) (e1 e2 : Z) :
  (0 <= fst (fst (SFdiv_core_binary prec emax (Zpos m1) e1 (Zpos m2) e2)))%Z.
Proof.
  unfold SFdiv_core_binary.
  set (sh := (e1 - e2 - _)%Z).
  set (m' := match sh with Z0 => _ | Zpos _ => _ | Zneg _ => _ end).
  assert (Hm : (0 <= m')%Z).
  { subst m'. destruct sh; try lia. apply Z.shiftl_nonneg. lia. }
  pose proof (Z.div_pos m' (Zpos m2) Hm ltac:(lia)) as Hq.
  unfold Z.div in Hq.
  destruct (Z.div_eucl m' (Zpos m2)) as [q r]. exact Hq.
Qed.

(** The quotient of a natural number by a positive one is a non-negative
    float or [+inf], never a NaN. *)
Lemma fdiv_nonneg (n d : Z) :
  (0 <= n)%Z -> (0 < d)%Z ->
  is_nan (fdiv (float_of_Z n) (float_of_Z d)) = false /\
  sign_bit (fdiv (float_of_Z n) (float_of_Z d)) = false.
Proof.
  intros Hn Hd.
  destruct d as [|q|q]; try lia.
  destruct n as [|p|p]; try lia; [now split|].
  unfold fdiv, float_of_Z, SFdiv.
  pose proof (SFdiv_core_binary_nonneg 53 1024 p q 0 0) as H.
  destruct (SFdiv_core_binary 53 1024 (Z.pos p) 0 (Z.pos q) 0) as [[mz ez] lz].
  simpl in H. now apply binary_round_aux_sign.
Qed.

Lemma digit_val_nonneg (c : ascii) : (0 <= digit_val c)%Z.
Proof. unfold digit_val. lia. Qed.

Lemma digits_val_nonneg (s : string) (acc : Z) :
  (0 <= acc)%Z -> (0 <= digits_val acc s)%Z.
Proof.
  revert acc; induction s as [|c s IH]; intros acc H; cbn [digits_val];
    [exact H|].
  apply IH. pose proof (digit_val_nonneg c). lia.
Qed.

Lemma float_of_numeral_nonneg (text : string) :
  is_nan (float_of_numeral text) = false /\
  sign_bit (float_of_numeral text) = false.
Proof.
  unfold float_of_numeral.
  destruct (match find "." text with
            | Some i => (take i text, drop (S i) text)
            | None => (text, "")
            end) as [ip fp].
  apply fdiv_nonneg.
  - apply digits_val_nonneg. lia.
  - apply Z.pow_pos_nonneg; lia.
Qed.

(** ** The order of the floats that are not NaN *)

Ltac float_order :=
  repeat match goal with
         | s : bool |- _ => destruct s
         end;
  simpl in *; try congruence;
  change (Pos.compare_cont Eq) with Pos.compare in *;
  repeat match goal with
         | H : context [Z.compare ?x ?y] |- _ =>
             destruct (Z.compare_spec x y); simpl in H
         | |- context [Z.compare ?x ?y] =>
             destruct (Z.compare_spec x y); simpl
         | H : context [Pos.compare ?x ?y] |- _ =>
             destruct (Pos.compare_spec x y); simpl in H
         | |- context [Pos.compare ?x ?y] =>
             destruct (Pos.compare_spec x y); simpl
         end;
  try congruence; try lia.

Lemma flt_irrefl (a : float) : flt a a = false.
Proof.
  unfold flt, SFltb. destruct a as [s|s| |s m e]; float_order.
Qed.


Lemma flt_trans (a b c : float) :
  flt a b = true -> flt b c = true -> flt a c = true.
Proof.
  unfold flt, SFltb.
  destruct a as [?|?| |? ? ?], b as [?|?| |? ? ?], c as [?|?| |? ? ?];
    float_order.
Qed.

Lemma feq_refl (a : float) : is_nan a = false -> feq a a = true.
Proof.
  unfold feq, SFeqb. destruct a as [?|?| |? ? ?]; float_order.
Qed.

Lemma feq_sym (a b : float) : feq a b = feq b a.
Proof.
  unfold feq, SFeqb. destruct a as [?|?| |? ? ?], b as [?|?| |? ? ?]; float_order.
Qed.

Lemma feq_trans (a b c : float) :
  feq a b = true -> feq b c = true -> feq a c = true.
Proof.
  unfold feq, SFeqb.
  destruct a as [?|?| |? ? ?], b as [?|?| |? ? ?], c as [?|?| |? ? ?];
    float_order.
Qed.

Lemma feq_not_lt (a b : float) : feq a b = true -> flt a b = false.
Proof.
  unfold feq, flt, SFeqb, SFltb.
  destruct a as [?|?| |? ? ?], b as [?|?| |? ? ?]; float_order.
Qed.

Lemma feq_not_nan (a b : float) :
  feq a b = true -> is_nan a = false /\ is_nan b = false.
Proof.
  unfold feq, SFeqb. destruct a as [?|?| |? ? ?], b as [?|?| |? ? ?];
    simpl; auto; discriminate.
Qed.

(** Two floats that are not NaN are equal or one is below the other. *)
Lemma float_total (a b : float) :
  is_nan a = false -> is_nan b = false ->
  flt a b = false -> flt b a = false -> feq a b = true.
Proof.
  unfold feq, flt, SFeqb, SFltb.
  destruct a as [?|?| |? ? ?], b as [?|?| |? ? ?]; float_order.
Qed.

Lemma flt_feq_l (a b c : float) :
  feq a b = true -> flt a c = flt b c.
Proof.
  unfold feq, flt, SFeqb, SFltb.
  destruct a as [?|?| |? ? ?], b as [?|?| |? ? ?], c as [?|?| |? ? ?];
    float_order.
Qed.

Lemma flt_feq_r (a b c : float) :
  feq a b = true -> flt c a = flt c b.
Proof.
  unfold feq, flt, SFeqb, SFltb.
  destruct a as [?|?| |? ? ?], b as [?|?| |? ? ?], c as [?|?| |? ? ?];
    float_order.
Qed.

Lemma feq_feq_l (a b c : float) :
  feq a b = true -> feq a c = feq b c.
Proof.
  unfold feq, SFeqb.
  destruct a as [?|?| |? ? ?], b as [?|?| |? ? ?], c as [?|?| |? ? ?];
    float_order.
Qed.

Lemma flt_fneg (a b : float) : flt (fneg a) (fneg b) = flt b a.
Proof.
  unfold flt, SFltb, fneg.
  destruct a as [?|?| |? ? ?], b as [?|?| |? ? ?]; float_order.
Qed.

Lemma feq_fneg (a b : float) : feq (fneg a) (fneg b) = feq a b.
Proof.
  unfold feq, SFeqb, fneg.
  destruct a as [?|?| |? ? ?], b as [?|?| |? ? ?]; float_order.
Qed.

Lemma is_nan_fneg (a : float) : is_nan (fneg a) = is_nan a.
Proof. now destruct a. Qed.

Lemma flt_fle (a b : float) : flt a b = true -> fle a b = true.
Proof.
  unfold flt, fle, SFltb, SFleb.
  destruct a as [?|?| |? ? ?], b as [?|?| |? ? ?]; float_order.
Qed.

Lemma not_flt_fle (a b : float) :
  is_nan a = false -> is_nan b = false -> flt a b = false -> fle b a = true.
Proof.
  unfold flt, fle, SFltb, SFleb.
  destruct a as [?|?| |? ? ?], b as [?|?| |? ? ?]; float_order.
Qed.

Lemma fle_trans (a b c : float) :
  fle a b = true -> fle b c = true -> fle a c = true.
Proof.
  unfold fle, SFleb.
  destruct a as [?|?| |? ? ?], b as [?|?| |? ? ?], c as [?|?| |? ? ?];
    float_order.
Qed.

End PyFacts.

(** * Facts about commerce_agent.py *)

Module CommerceFacts.

Import Py PyFacts CommerceAgent Reading.
Local Open Scope string_scope.

(** ** Dictionaries *)

Lemma dict_lookup_set_same (k : string) (v : value) (d : dict) :
  dict_lookup k (dict_set k v d) = Some v.
Proof.
  induction d as [|[k' v'] d IH]; simpl.
  - now rewrite String.eqb_refl.
  - destruct (String.eqb k k') eqn:E; simpl; rewrite E; auto.
Qed.

Lemma dict_lookup_set_other (k k' : string) (v : value) (d : dict) :
  String.eqb k k' = false ->
  dict_lookup k (dict_set k' v d) = dict_lookup k d.
Proof.
  intros N. induction d as [|[k'' v''] d IH]; simpl.
  - now rewrite N.
  - destruct (String.eqb k' k'') eqn:E; simpl.
    + apply String.eqb_eq in E. subst k''. now rewrite N.
    + now rewrite IH.
Qed.

(** ** The object store *)

Lemma nth_update_nth_same {A} (n : nat) (x d : A) (l : list A) :
  (n < List.length l)%nat -> nth n (update_nth n x l) d = x.
Proof.
  revert l; induction n as [|n IH]; intros [|y l] H; simpl in *; try lia; auto.
  apply IH. lia.
Qed.

Lemma nth_update_nth_other {A} (n m : nat) (x d : A) (l : list A) :
  n <> m -> nth n (update_nth m x l) d = nth n l d.
Proof.
  revert n l; induction m as [|m IH]; intros [|n] [|y l] H; simpl; auto;
    try congruence.
Qed.

Lemma length_update_nth {A} (n : nat) (x : A) (l : list A) :
  List.length (update_nth n x l) = List.length l.
Proof.
  revert l; induction n as [|n IH]; intros [|y l]; simpl; auto.
Qed.

Lemma update_nth_twice {A} (n : nat) (x y : A) (l : list A) :
  update_nth n y (update_nth n x l) = update_nth n y l.
Proof.
  revert l; induction n as [|n IH]; intros [|z l]; simpl; auto.
  now rewrite IH.
Qed.

Lemma update_nth_same {A} (n : nat) (d : A) (l : list A) :
  (n < List.length l)%nat -> update_nth n (nth n l d) l = l.
Proof.
  revert l; induction n as [|n IH]; intros [|z l] H; simpl in *; try lia; auto.
  rewrite IH; auto. lia.
Qed.

Lemma update_nth_last {A} (l : list A) (x y : A) :
  update_nth (List.length l) y (l ++ [x])%list = (l ++ [y])%list.
Proof. induction l as [|z l IH]; simpl; congruence. Qed.

Lemma deref_store_same (p : loc) (l : list value) (w : world) :
  (p < List.length (heap w))%nat -> deref p (store p l w) = l.
Proof. intros H. unfold deref, store; simpl. now apply nth_update_nth_same. Qed.

Lemma deref_store_other (p q : loc) (l : list value) (w : world) :
  p <> q -> deref p (store q l w) = deref p w.
Proof. intros H. unfold deref, store; simpl. now apply nth_update_nth_other. Qed.

Lemma store_store (p : loc) (l l' : list value) (w : world) :
  store p l' (store p l w) = store p l' w.
Proof. unfold store; simpl. now rewrite update_nth_twice. Qed.

Lemma store_deref (p : loc) (w : world) :
  (p < List.length (heap w))%nat -> store p (deref p w) w = w.
Proof.
  intros H. unfold store, deref. rewrite update_nth_same by exact H.
  now destruct w.
Qed.

Section WithEnv.
Variable json_loads : string -> outcome value.
Variable repr : value -> string.

(** ** The normalisation loop *)

Lemma parse_price_not_nan {A} (str : A -> outcome string) (x : A) :
  is_nan (parse_price str x) = false /\ sign_bit (parse_price str x) = false.
Proof.
  unfold parse_price. destruct (str x) as [s|e]; simpl; [|now split].
  destruct (search_numeral _); [apply float_of_numeral_nonneg | now split].
Qed.

Lemma parse_rating_not_nan {A} (str : A -> outcome string) (x : A) :
  is_nan (parse_rating str x) = false /\ sign_bit (parse_rating str x) = false.
Proof.
  unfold parse_rating. destruct (str x) as [s|e]; simpl; [|now split].
  destruct (search_numeral _); [apply float_of_numeral_nonneg | now split].
Qed.

Lemma normalise_dict (d : dict) :
  exists d' p r,
    normalise repr (VDict d) = Ok (VDict d') /\
    dict_lookup "numeric_price" d' = Some (VFloat p) /\
    dict_lookup "numeric_rating" d' = Some (VFloat r) /\
    is_nan p = false /\ is_nan r = false.
Proof.
  unfold normalise. cbn [get_method].
  destruct (dict_lookup "price" d) as [v|]; cbn [bind setitem get_method];
    match goal with
    | |- context [dict_lookup "rating" ?d1] =>
        destruct (dict_lookup "rating" d1) as [v'|]
    end; cbn [bind setitem];
    do 3 eexists; (split; [reflexivity|]);
    (split; [rewrite dict_lookup_set_other by reflexivity;
             apply dict_lookup_set_same|]);
    (split; [apply dict_lookup_set_same|]);
    (split; [apply parse_price_not_nan | apply parse_rating_not_nan]).
Qed.

Lemma normalise_not_dict (x : value) :
  isinstance_dict x = false -> exists e, normalise repr x = Raise e.
Proof.
  destruct x; simpl; try discriminate; intros _; eexists; reflexivity.
Qed.

Lemma classify_dict (x : value) :
  isinstance_dict x = true ->
  exists o, classify repr x = Ok o /\
            match o with Some y => is_item y | None => True end.
Proof.
  destruct x as [| | | | | |d]; try discriminate. intros _.
  destruct (normalise_dict d) as (d' & p & r & N & Lp & Lr & Np & Nr).
  unfold classify. rewrite N. simpl. rewrite Lp. simpl.
  eexists. split; [reflexivity|].
  destruct (flt zero p); [|exact I].
  exists d', p, r. auto.
Qed.

Lemma classify_not_dict (x : value) :
  isinstance_dict x = false -> exists e, classify repr x = Raise e.
Proof.
  intros H. destruct (normalise_not_dict _ H) as [e E].
  exists e. unfold classify. now rewrite E.
Qed.

Lemma collected_ok (l : list value) :
  fst (collected repr l) = Ok tt <-> forallb isinstance_dict l = true.
Proof.
  induction l as [|x l IH]; simpl; [tauto|].
  destruct (isinstance_dict x) eqn:D.
  - destruct (classify_dict _ D) as (o & E & _). rewrite E.
    destruct (collected repr l) as [r k]. simpl in *. exact IH.
  - destruct (classify_not_dict _ D) as (e & E). rewrite E. simpl.
    split; discriminate.
Qed.

Lemma collected_returns (l : list value) :
  (exists e, fst (collected repr l) = Raise e) \/ fst (collected repr l) = Ok tt.
Proof.
  induction l as [|x l IH]; simpl; [now right|].
  destruct (classify repr x) as [o|e]; simpl; [|left; now exists e].
  destruct (collected repr l) as [r k]. exact IH.
Qed.

Lemma collected_items (l : list value) :
  Forall is_item (snd (collected repr l)).
Proof.
  induction l as [|x l IH]; simpl; [constructor|].
  destruct (isinstance_dict x) eqn:D.
  - destruct (classify_dict _ D) as (o & E & Ho). rewrite E.
    destruct (collected repr l) as [r k]. simpl in *.
    destruct o; [constructor|]; auto.
  - destruct (classify_not_dict _ D) as (e & E). rewrite E. constructor.
Qed.

(** The loop on the store is the loop without it, appended to the list
    object. *)
Lemma collect_eq (p : loc) (l : list value) (fr : frame) :
  (p < List.length (heap (fr_world fr)))%nat ->
  collect repr p l fr =
  (fst (collected repr l),
   on_world (fun w => store p (deref p w ++ snd (collected repr l)) w) fr).
Proof.
  revert fr; induction l as [|x l IH]; intros [w r] H.
  - simpl in *. unfold ret, on_world; simpl.
    rewrite app_nil_r, store_deref; auto.
  - cbn [collect collected]. unfold classify.
    unfold mbind at 1. unfold lift at 1.
    assert (R : forall e : exn,
               (Raise e, Frame w r) =
               (fst (@Raise unit e, @nil value),
                on_world (fun w0 => store p (deref p w0 ++
                            snd (@Raise unit e, @nil value)) w0) (Frame w r))).
    { intros e. unfold on_world; simpl.
      rewrite app_nil_r, store_deref by exact H. reflexivity. }
    destruct (normalise repr x) as [x'|e] eqn:N; cbn [bind]; [|apply R].
    unfold mbind at 1. unfold lift at 1.
    destruct (subscript x' "numeric_price") as [np|e]; cbn [bind]; [|apply R].
    unfold mbind at 1. unfold lift at 1.
    destruct (positive np) as [keep|e]; cbn [bind]; [|apply R].
    unfold mbind at 1.
    destruct keep.
    + unfold modify at 1. rewrite IH.
      * destruct (collected repr l) as [r0 l0]; simpl.
        unfold on_world; simpl. f_equal. f_equal.
        rewrite deref_store_same, store_store, <- app_assoc by exact H.
        reflexivity.
      * simpl. now rewrite length_update_nth.
    + unfold ret at 1. rewrite IH by exact H.
      now destruct (collected repr l).
Qed.
End WithEnv.

(** ** The sort *)

Lemma is_item_numbers (x : value) :
  is_item x ->
  subscript x "numeric_price" = Ok (VFloat (numeric_price x)) /\
  subscript x "numeric_rating" = Ok (VFloat (numeric_rating x)) /\
  is_nan (numeric_price x) = false /\ is_nan (numeric_rating x) = false.
Proof.
  intros (d & p & r & -> & Lp & Lr & Np & Nr).
  unfold numeric_price, numeric_rating; simpl. rewrite Lp, Lr. auto.
Qed.

Lemma sort_key_item (x : value) :
  is_item x -> sort_key x = Ok (fst (keyed_of x)).
Proof.
  intros H. destruct (is_item_numbers H) as (Ep & Er & _).
  unfold sort_key. rewrite Ep, Er. reflexivity.
Qed.

Lemma with_keys_items (l : list value) :
  Forall is_item l -> with_keys l = Ok (map keyed_of l).
Proof.
  induction 1 as [|x l Hx Hl IH]; simpl; [reflexivity|].
  rewrite (sort_key_item Hx), IH. reflexivity.
Qed.

(** [<] on the keys of two items, in terms of their numbers. *)
Lemma key_lt_items (x y : value) :
  key_lt (fst (keyed_of x)) (fst (keyed_of y)) =
  Ok (if feq (numeric_price x) (numeric_price y)
      then flt (numeric_rating y) (numeric_rating x)
      else flt (numeric_price x) (numeric_price y)).
Proof.
  unfold key_lt, keyed_of; simpl.
  destruct (feq _ _); [|reflexivity]. now rewrite flt_fneg.
Qed.

Lemma ranks_before_of_lt (x y : value) :
  key_lt (fst (keyed_of x)) (fst (keyed_of y)) = Ok true -> ranks_before x y.
Proof.
  rewrite key_lt_items. intros [= H].
  destruct (feq (numeric_price x) (numeric_price y)) eqn:E.
  - right. split; [exact E|]. now apply flt_fle.
  - now left.
Qed.

Lemma ranks_before_of_not_lt (x y : value) :
  is_item x -> is_item y ->
  key_lt (fst (keyed_of y)) (fst (keyed_of x)) = Ok false -> ranks_before x y.
Proof.
  intros Hx Hy. rewrite key_lt_items. intros [= H].
  destruct (is_item_numbers Hx) as (_ & _ & Npx & Nrx).
  destruct (is_item_numbers Hy) as (_ & _ & Npy & Nry).
  destruct (feq (numeric_price y) (numeric_price x)) eqn:E.
  - right. split; [now rewrite feq_sym|]. now apply not_flt_fle.
  - left. destruct (flt (numeric_price x) (numeric_price y)) eqn:L; [reflexivity|].
    rewrite (float_total _ _ Npy Npx H L) in E. discriminate.
Qed.

Lemma ranks_before_trans (x y z : value) :
  ranks_before x y -> ranks_before y z -> ranks_before x z.
Proof.
  intros [L1|[E1 R1]] [L2|[E2 R2]].
  - left. eapply flt_trans; eassumption.
  - left. now rewrite <- (flt_feq_r _ _ _ E2).
  - left. now rewrite (flt_feq_l _ _ _ E1).
  - right. split; [eapply feq_trans | eapply fle_trans]; eassumption.
Qed.

Lemma insert_keyed_items (x : value) (l : list value) :
  is_item x -> Forall is_item l -> StronglySorted ranks_before l ->
  exists l',
    insert_keyed (keyed_of x) (map keyed_of l) = Ok (map keyed_of l') /\
    Permutation (x :: l) l' /\ StronglySorted ranks_before l'.
Proof.
  intros Hx Hl Hs. induction l as [|y l IH].
  - exists [x]. simpl. repeat split; auto. constructor; constructor.
  - apply Forall_cons_iff in Hl. destruct Hl as [Hy Hl].
    apply StronglySorted_inv in Hs. destruct Hs as [Hs Hyl].
    cbn [insert_keyed map].
    pose proof (key_lt_items y x) as K.
    destruct (if feq (numeric_price y) (numeric_price x)
              then flt (numeric_rating x) (numeric_rating y)
              else flt (numeric_price y) (numeric_price x)) eqn:B;
      rewrite K; cbn [bind].
    + destruct (IH Hl Hs) as (l' & E & P & S). rewrite E. cbn [bind].
      exists (y :: l'). split; [reflexivity|]. split.
      * rewrite perm_swap. now constructor.
      * constructor; [exact S|].
        eapply Permutation_Forall; [exact P|].
        constructor; [|exact Hyl]. now apply ranks_before_of_lt.
    + exists (x :: y :: l). split; [reflexivity|]. split; [reflexivity|].
      pose proof (ranks_before_of_not_lt Hx Hy K) as Rxy.
      constructor; [now constructor|].
      constructor; [exact Rxy|].
      eapply Forall_impl; [|exact Hyl].
      intros z Hz. eapply ranks_before_trans; eassumption.
Qed.

Lemma sort_keyed_items (l : list value) :
  Forall is_item l ->
  exists l',
    sort_keyed (map keyed_of l) = Ok (map keyed_of l') /\
    Permutation l l' /\ StronglySorted ranks_before l'.
Proof.
  induction 1 as [|x l Hx Hl IH].
  - exists []. simpl. repeat split; auto. constructor.
  - destruct IH as (l1 & E & P & S). cbn [sort_keyed map]. rewrite E. cbn [bind].
    assert (H1 : Forall is_item l1) by (eapply Permutation_Forall; eassumption).
    destruct (insert_keyed_items Hx H1 S) as (l2 & E2 & P2 & S2).
    exists l2. split; [exact E2|]. split; [|exact S2].
    rewrite <- P2. now constructor.
Qed.






(** On items the sort never raises and orders them. *)
Lemma sort_by_key_items (l : list value) :
  Forall is_item l ->
  exists l',
    sort_by_key l = Ok l' /\ Permutation l l' /\
    StronglySorted ranks_before l'.
Proof.
  intros H. destruct (sort_keyed_items H) as (l' & E & P & S).
  exists l'. unfold sort_by_key. rewrite (with_keys_items H). cbn [bind].
  rewrite E. cbn [bind]. split; [|auto].
  f_equal. rewrite map_map. simpl. apply map_id.
Qed.


(** ** The result of one parse *)

Section Parse.
Variable json_loads : string -> outcome value.
Variable repr : value -> string.

Ltac same_run :=
  repeat match goal with
         | H : ?x = _, H' : ?x = _ |- _ =>
             rewrite H in H'; try discriminate H'; injection H' as <-
         end.

Lemma decodes_to_unique (output : string) (l l' : list value) :
  decodes_to json_loads output l -> decodes_to json_loads output l' -> l = l'.
Proof.
  intros (js & v & F & _ & D & I & _) (js' & v' & F' & _ & D' & I' & _).
  same_run. reflexivity.
Qed.

(** [parse_result] without the monad. *)
Lemma parse_result_eq (app output : string) (w : world) :
  parse_result json_loads repr app output w =
  let untouched h' :=
    (ResultData app "failed" (List.length (heap w)) VNone output,
     World (heap w ++ [] :: h') (trace w)) in
  match strip_fence (strip output) with
  | Raise _ => untouched []
  | Ok js =>
      if startswith "[" js || startswith "{" js then
        match json_loads js with
        | Raise _ => untouched []
        | Ok v =>
            match iterate (if isinstance_dict v then VList [v] else v) with
            | Raise _ => untouched []
            | Ok l =>
                let kept := snd (collected repr l) in
                match fst (collected repr l) with
                | Raise _ => untouched [kept]
                | Ok _ =>
                    match sort_by_key kept with
                    | Ok sorted =>
                        (ResultData app "success" (S (List.length (heap w)))
                                    (hd VNone sorted) output,
                         World (heap w ++ [[]; sorted]) (trace w))
                    | Raise _ =>
                        (ResultData app "success" (S (List.length (heap w)))
                                    VNone output,
                         World (heap w ++ [[]; kept]) (trace w))
                    end
                end
            end
        end
      else untouched []
  end.
Proof.
  unfold parse_result, alloc, try_block.
  unfold mbind at 1. unfold lift at 1.
  destruct (strip_fence (strip output)) as [js|e] eqn:F; [|reflexivity].
  destruct (startswith "[" js || startswith "{" js) eqn:St; [|reflexivity].
  unfold mbind at 1. unfold lift at 1.
  destruct (json_loads js) as [v|e] eqn:D; [|reflexivity].
  unfold mbind at 1. unfold lift at 1.
  destruct (iterate _) as [l|e] eqn:It; [|reflexivity].
  unfold mbind at 1. cbn [fr_world fr_result alloc heap trace fst snd].
  unfold mbind at 1.
  rewrite collect_eq
    by (cbn [fr_world heap]; rewrite !length_app; simpl; lia).
  assert (Hp : (List.length (heap w ++ [[]]) < List.length
                  (heap (World ((heap w ++ [[]]) ++ [[]]) (trace w))))%nat)
    by (cbn [heap]; rewrite !length_app; simpl; lia).
  assert (Hd : deref (List.length (heap w ++ [[]]))
                 (World ((heap w ++ [[]]) ++ [[]]) (trace w)) = []).
  { unfold deref; cbn [heap]. now rewrite nth_middle. }
  assert (Hst : forall k : list value,
             store (List.length (heap w ++ [[]])) k
               (World ((heap w ++ [[]]) ++ [[]]) (trace w)) =
             World ((heap w ++ [[]]) ++ [k]) (trace w)).
  { intros k. unfold store; cbn [heap trace]. f_equal.
    apply update_nth_last. }
  assert (Hl : List.length (heap w ++ [[]]) = S (List.length (heap w)))
    by (rewrite length_app; simpl; lia).
  unfold on_world. cbn [fr_world fr_result].
  rewrite Hd. cbn [List.app].
  destruct (fst (collected repr l)) as [[]|e] eqn:C.
  2:{ rewrite Hst, <- app_assoc. reflexivity. }
  unfold mbind at 1. unfold modify at 1. unfold mbind at 1.
  unfold modify at 1. unfold mbind at 1. unfold get at 1.
  unfold on_result. cbn [fr_world fr_result].
  rewrite deref_store_same by exact Hp.
  destruct (snd (collected repr l)) as [|x k] eqn:K.
  - unfold ret. cbn [fr_world fr_result sort_by_key with_keys bind
                     sort_keyed map hd].
    rewrite Hst, <- app_assoc, Hl. reflexivity.
  - unfold mbind at 1. unfold lift at 1.
    destruct (sort_by_key (x :: k)) as [sorted|e] eqn:So.
    2:{ cbn [fr_world fr_result]. rewrite Hst, <- app_assoc, Hl. reflexivity. }
    unfold mbind at 1. unfold modify at 1. unfold mbind at 1.
    unfold get at 1. cbn [fr_world fr_result].
    rewrite store_store, deref_store_same by exact Hp.
    destruct sorted as [|s0 sorted].
    { exfalso. revert So. unfold sort_by_key.
      destruct (with_keys (x :: k)) as [ks|] eqn:W; cbn [bind]; [|discriminate].
      destruct ks as [|k0 ks].
      { simpl in W. destruct (sort_key x); simpl in W; [|discriminate].
        destruct (with_keys k); discriminate. }
      cbn [sort_keyed]. destruct (sort_keyed ks) as [r|]; cbn [bind];
        [|discriminate].
      destruct r as [|r0 r]; cbn [insert_keyed bind]; [discriminate|].
      destruct (key_lt (fst r0) (fst k0)) as [[]|]; cbn [bind];
        try discriminate.
      destruct (insert_keyed k0 r); discriminate. }
    unfold mbind, lift, modify, getitem_list, on_result.
    cbn [nth_error fr_world fr_result hd].
    rewrite Hst, <- app_assoc, Hl. reflexivity.
Qed.

(** What [parse_result] returns: either the result as it was first
    built, or, when the output holds a list of objects, the survivors
    sorted in a new list object and the first of them as best item. *)
Lemma parse_result_cases (app output : string) (w : world) :
  (exists h',
      parse_result json_loads repr app output w =
      (ResultData app "failed" (List.length (heap w)) VNone output,
       World (heap w ++ [] :: h') (trace w)) /\
      forall l, ~ decodes_to json_loads output l)
  \/
  (exists l sorted,
      decodes_to json_loads output l /\
      Forall is_item sorted /\
      Permutation (snd (collected repr l)) sorted /\
      StronglySorted ranks_before sorted /\
      parse_result json_loads repr app output w =
      (ResultData app "success" (S (List.length (heap w)))
                  (hd VNone sorted) output,
       World (heap w ++ [[]; sorted]) (trace w))).
Proof.
  rewrite parse_result_eq. cbv zeta.
  destruct (strip_fence (strip output)) as [js|e] eqn:F.
  2:{ left. exists []. split; [reflexivity|].
      intros l (js' & v' & F' & _). same_run. }
  destruct (startswith "[" js || startswith "{" js) eqn:St.
  2:{ left. exists []. split; [reflexivity|].
      intros l (js' & v' & F' & St' & _). same_run. }
  destruct (json_loads js) as [v|e] eqn:D.
  2:{ left. exists []. split; [reflexivity|].
      intros l (js' & v' & F' & _ & D' & _). same_run. }
  destruct (iterate _) as [l|e] eqn:It.
  2:{ left. exists []. split; [reflexivity|].
      intros l (js' & v' & F' & _ & D' & I' & _). same_run. }
  destruct (fst (collected repr l)) as [[]|e] eqn:C.
  2:{ left. exists [snd (collected repr l)]. split; [reflexivity|].
      intros l' (js' & v' & F' & _ & D' & I' & A'). same_run.
      apply (collected_ok repr) in A'. rewrite C in A'. discriminate. }
  right.
  pose proof (collected_items repr l) as Hi.
  destruct (sort_by_key_items Hi) as (sorted & So & P & S).
  exists l, sorted. rewrite So.
  split.
  { exists js, v. repeat split; auto. now apply (collected_ok repr). }
  split; [eapply Permutation_Forall; eassumption|].
  auto.
Qed.
End Parse.

End CommerceFacts.

(** * Facts about fences *)

Module FenceFacts.

Import Py PyFacts CommerceAgent Reading.
Local Open Scope string_scope.

Lemma find_cons_miss (sub : string) (c : ascii) (s : string) :
  prefix sub (String c s) = false ->
  find sub (String c s) = option_map S (find sub s).
Proof. intros H. rewrite find_eq, H. reflexivity. Qed.

(** Before the place that [find] answers the separator does not stand. *)
Lemma find_some_first (sub s : string) (i j : nat) :
  find sub s = Some i -> (j < i)%nat -> prefix sub (drop j s) = false.
Proof.
  revert i j; induction s as [|c s IH]; intros i j; rewrite find_eq.
  - destruct (prefix sub ""); [intros [= <-]; lia | discriminate].
  - destruct (prefix sub (String c s)) eqn:P; [intros [= <-]; lia|].
    destruct (find sub s) as [k|] eqn:F; simpl; [|discriminate].
    intros [= <-] Hj. destruct j as [|j]; simpl; [exact P|].
    apply (IH k); [reflexivity | lia].
Qed.

Lemma prefix_append_l (a b s : string) :
  prefix (a ++ b) s = true -> prefix a s = true.
Proof.
  revert s; induction a as [|c a IH]; intros s.
  - now destruct s.
  - destruct s as [|d s]; simpl; [discriminate|].
    destruct (ascii_dec c d); [apply IH | discriminate].
Qed.

(** A longer separator is found no earlier than its beginning. *)
Lemma find_longer_none (a b s : string) :
  find a s = None -> find (a ++ b) s = None.
Proof.
  intros H. destruct (find (a ++ b) s) as [i|] eqn:F; [|reflexivity].
  apply find_some_prefix, prefix_append_l in F.
  now rewrite (find_none_prefix _ _ i H) in F.
Qed.

Lemma find_drop_none (sub s : string) (n : nat) :
  find sub s = None -> find sub (drop n s) = None.
Proof.
  intros H. destruct (find sub (drop n s)) as [i|] eqn:F; [|reflexivity].
  apply find_some_prefix in F. rewrite drop_drop in F.
  now rewrite (find_none_prefix _ _ _ H) in F.
Qed.

Lemma prefix_take (sub s : string) (n : nat) :
  prefix sub (take n s) = true -> prefix sub s = true.
Proof.
  revert s n; induction sub as [|c sub IH]; intros s n.
  - now destruct s.
  - destruct n as [|n], s as [|d s]; simpl; try discriminate.
    destruct (ascii_dec c d); [apply IH | discriminate].
Qed.

Lemma drop_take (i n : nat) (s : string) :
  drop i (take n s) = take (n - i) (drop i s).
Proof.
  revert n s; induction i as [|i IH]; intros n s.
  - simpl. now rewrite Nat.sub_0_r.
  - destruct n as [|n]; [reflexivity|].
    destruct s as [|c s]; simpl; [now destruct (n - i)%nat | apply IH].
Qed.

Lemma find_take_none (sub s : string) (n : nat) :
  find sub s = None -> find sub (take n s) = None.
Proof.
  intros H. destruct (find sub (take n s)) as [i|] eqn:F; [|reflexivity].
  apply find_some_prefix in F. rewrite drop_take in F.
  apply prefix_take in F.
  now rewrite (find_none_prefix _ _ _ H) in F.
Qed.

Lemma lstrip_drop (s : string) : exists n, lstrip s = drop n s.
Proof.
  induction s as [|c s [n IH]]; simpl; [now exists 0%nat|].
  destruct (is_space c); [now exists (S n) | now exists 0%nat].
Qed.

Lemma rstrip_take (s : string) : exists n, rstrip s = take n s.
Proof.
  induction s as [|c s [n IH]]; simpl; [now exists 0%nat|].
  destruct (rstrip s) as [|d r] eqn:R.
  - destruct (is_space c); [now exists 0%nat | now exists 1%nat; destruct s].
  - exists (S n). simpl. now rewrite <- IH.
Qed.

Lemma find_strip_none (sub s : string) :
  find sub s = None -> find sub (strip s) = None.
Proof.
  intros H. unfold strip.
  destruct (rstrip_take s) as [n ->].
  destruct (lstrip_drop (take n s)) as [m ->].
  now apply find_drop_none, find_take_none.
Qed.

Lemma rstrip_snoc_space (s : string) (c : ascii) :
  is_space c = true -> rstrip (s ++ String c "") = rstrip s.
Proof.
  intros H. induction s as [|d s IH]; simpl; [now rewrite H|].
  now rewrite IH.
Qed.

Lemma rstrip_snoc_other (s : string) (c : ascii) :
  is_space c = false -> rstrip (s ++ String c "") = s ++ String c "".
Proof.
  intros H. induction s as [|d s IH]; simpl; [now rewrite H|].
  rewrite IH. now destruct s.
Qed.

Lemma strip_cons_space (c : ascii) (s : string) :
  is_space c = true -> strip (String c s) = strip s.
Proof.
  intros H. unfold strip. simpl.
  destruct (rstrip s); simpl; now rewrite H.
Qed.

Lemma take_append (a b : string) : take (length a) (a ++ b) = a.
Proof. induction a; simpl; [now destruct b | congruence]. Qed.

Lemma drop_append (a b : string) : drop (length a) (a ++ b) = b.
Proof. induction a; simpl; auto. Qed.

(** Three backticks cannot reach over a line break. *)
Lemma prefix_fence_newline (s r : string) :
  prefix "```" (s ++ newline ++ r) = prefix "```" s.
Proof.
  destruct s as [|a [|b [|c s]]]; simpl;
    repeat match goal with
           | |- context [ascii_dec ?x ?y] => destruct (ascii_dec x y)
           end; try reflexivity; try discriminate.
  now destruct (s ++ newline ++ r), s.
Qed.

Lemma find_fence_after (t : string) :
  find "```" t = None ->
  find "```" (t ++ newline ++ "```") = Some (S (length t)).
Proof.
  induction t as [|c t IH]; [reflexivity|].
  rewrite find_eq. destruct (prefix "```" (String c t)) eqn:P; [discriminate|].
  destruct (find "```" t) eqn:F; [discriminate|]. intros _.
  change (String c t ++ newline ++ "```")
    with (String c (t ++ newline ++ "```")).
  rewrite find_cons_miss.
  - rewrite IH by reflexivity. reflexivity.
  - change (String c (t ++ newline ++ "```"))
      with (String c t ++ newline ++ "```").
    now rewrite prefix_fence_newline.
Qed.

(** The output [fenced t], unfolded step by step as the source does. *)
Lemma strip_fenced (t : string) : strip (fenced t) = fenced t.
Proof.
  unfold strip, fenced.
  replace ("```json" ++ newline ++ t ++ newline ++ "```")
    with (("```json" ++ newline ++ t ++ newline ++ "``") ++ "`")
    by (rewrite !append_assoc; reflexivity).
  rewrite rstrip_snoc_other by reflexivity. reflexivity.
Qed.

Lemma strip_fence_fenced (t : string) :
  find "```" t = None ->
  strip_fence (fenced t) = Ok (strip t).
Proof.
  intros H. unfold strip_fence, contains, fenced.
  assert (F1 : find "```json" ("```json" ++ newline ++ t ++ newline ++ "```")
               = Some 0%nat) by reflexivity.
  rewrite F1.
  assert (F2 : find "```" (newline ++ t ++ newline ++ "```")
               = Some (S (S (length t)))).
  { change (newline ++ t ++ newline ++ "```")
      with (String (ascii_of_nat 10) (t ++ newline ++ "```")).
    rewrite find_cons_miss by reflexivity.
    now rewrite find_fence_after. }
  assert (F3 : find "```json" (newline ++ t ++ newline ++ "```") = None).
  { destruct (find "```json" (newline ++ t ++ newline ++ "```")) as [i|] eqn:F;
      [|reflexivity].
    pose proof (find_some_bound _ _ F) as B.
    rewrite !length_append in B. simpl in B.
    pose proof (find_some_prefix _ _ F) as P.
    apply (prefix_append_l "```" "json") in P.
    rewrite (@find_some_first _ _ _ i F2) in P; [discriminate | lia]. }
  unfold split.
  change (length ("```json" ++ newline ++ t ++ newline ++ "```"))
    with (S (length ("``json" ++ newline ++ t ++ newline ++ "```"))).
  cbn [split_fuel]. rewrite F1.
  change (drop (0 + length "```json")
            ("```json" ++ newline ++ t ++ newline ++ "```"))
    with (newline ++ t ++ newline ++ "```").
  assert (E1 : getitem_list
                 (take 0 ("```json" ++ newline ++ t ++ newline ++ "```")
                  :: split_fuel
                       (length ("``json" ++ newline ++ t ++ newline ++ "```"))
                       "```json" (newline ++ t ++ newline ++ "```")) 1
               = Ok (newline ++ t ++ newline ++ "```")).
  { cbn [length append split_fuel]. rewrite F3. reflexivity. }
  rewrite E1. cbn [bind].
  change (length (newline ++ t ++ newline ++ "```"))
    with (S (length (t ++ newline ++ "```"))).
  cbn [split_fuel]. rewrite F2. cbn [getitem_list nth_error bind].
  f_equal.
  replace (newline ++ t ++ newline ++ "```")
    with ((newline ++ t ++ newline) ++ "```")
    by (rewrite !append_assoc; reflexivity).
  replace (S (S (length t))) with (length (newline ++ t ++ newline))
    by (rewrite !length_append; simpl; lia).
  rewrite take_append.
  change (newline ++ t ++ newline)
    with (String (ascii_of_nat 10) (t ++ newline)).
  rewrite strip_cons_space by reflexivity.
  unfold strip, newline. now rewrite rstrip_snoc_space.
Qed.

Lemma strip_fence_plain (t : string) :
  find "```" t = None -> strip_fence (strip t) = Ok (strip t).
Proof.
  intros H. apply find_strip_none in H.
  unfold strip_fence, contains.
  pose proof (find_longer_none "```" "json" _ H) as H'.
  cbn [append] in H'. rewrite H', H. reflexivity.
Qed.

(** With a fence in the text the second and the first piece are there. *)
Lemma split_second (d : ascii) (sep' s : string) :
  contains (String d sep') s = true ->
  exists a, getitem_list (split (String d sep') s) 1 = Ok a.
Proof.
  set (sep := String d sep').
  unfold contains, split. destruct (find sep s) as [i|] eqn:F; [|discriminate].
  intros _. destruct s as [|c s]; [discriminate|].
  cbn [length split_fuel]. rewrite F. clear F.
  destruct (length s); cbn [split_fuel getitem_list nth_error];
    [eexists; reflexivity|].
  destruct (find sep (drop _ _)); eexists; reflexivity.
Qed.

Lemma split_first (sep s : string) :
  exists a, getitem_list (split sep s) 0 = Ok a.
Proof.
  unfold split. destruct (length s); simpl; [eexists; reflexivity|].
  destruct (find sep s); eexists; reflexivity.
Qed.

(** Taking the fence off never raises. *)
Lemma strip_fence_returns (s : string) : exists js, strip_fence s = Ok js.
Proof.
  unfold strip_fence.
  destruct (contains "```json" s) eqn:C1.
  - destruct (split_second _ _ _ C1) as [a ->]. cbn [bind].
    destruct (split_first "```" a) as [b ->]. eexists; reflexivity.
  - destruct (contains "```" s) eqn:C2; [|eexists; reflexivity].
    destruct (split_second _ _ _ C2) as [a ->]. cbn [bind].
    destruct (split_first "```" a) as [b ->]. eexists; reflexivity.
Qed.

End FenceFacts.

(** * Facts about the range of the floats *)

Module RangeFacts.

Import Py PyFacts FenceFacts.
Local Open Scope Z_scope.

(** ** The number of binary digits *)





(** ** Shifting to the right *)









(** ** The size of a numeral *)










End RangeFacts.

(** * Facts about the workflow *)

Module WorkflowFacts.

Import Py PyFacts CommerceAgent Reading CommerceFacts.
Local Open Scope string_scope.

Lemma is_item_truthy (x : value) : is_item x -> truthy x = true.
Proof.
  intros (d & p & r & -> & Lp & _). destruct d; [discriminate | reflexivity].
Qed.

Lemma is_item_not_none (x : value) : is_item x -> x <> VNone.
Proof. intros (d & p & r & -> & _). discriminate. Qed.

(** The winner between two items, in terms of their numbers. *)
Lemma choose_winner_both (A B : string) (a b : value) :
  is_item a -> is_item b ->
  exists text,
    choose_winner A B a b =
    Ok (Some (if flt (numeric_price a) (numeric_price b) then A
              else if flt (numeric_price b) (numeric_price a) then B
              else if flt (numeric_rating b) (numeric_rating a) then A
              else B), text).
Proof.
  intros Ha Hb. unfold choose_winner.
  rewrite (is_item_truthy Ha), (is_item_truthy Hb). cbn [andb].
  destruct (is_item_numbers Ha) as (Pa & Ra & _).
  destruct (is_item_numbers Hb) as (Pb & Rb & _).
  rewrite Pa, Pb, Ra, Rb. cbn [bind value_lt].
  destruct (flt (numeric_price a) (numeric_price b)); [eexists; reflexivity|].
  destruct (flt (numeric_price b) (numeric_price a)); [eexists; reflexivity|].
  destruct (flt (numeric_rating b) (numeric_rating a)); eexists; reflexivity.
Qed.

Lemma choose_winner_first (A B : string) (a : value) :
  is_item a ->
  choose_winner A B a VNone = Ok (Some A, "Only found on " ++ A ++ ".").
Proof.
  intros Ha. unfold choose_winner. rewrite (is_item_truthy Ha). reflexivity.
Qed.

Lemma choose_winner_second (A B : string) (b : value) :
  is_item b ->
  choose_winner A B VNone b = Ok (Some B, "Only found on " ++ B ++ ".").
Proof.
  intros Hb. unfold choose_winner. rewrite (is_item_truthy Hb). reflexivity.
Qed.

Section Workflow.
Variable agent_run : string -> outcome string.
Variable json_loads : string -> outcome value.
Variable repr : value -> string.

(** The best item of a parse is an item or absent. *)
Lemma parse_result_best_item (app output : string) (w : world) :
  let b := best_item (fst (parse_result json_loads repr app output w)) in
  b = VNone \/ is_item b.
Proof.
  cbv zeta.
  destruct (parse_result_cases json_loads repr app output w)
    as [(h' & E & N) | (l & sorted & _ & Hi & _ & _ & E)]; rewrite E; simpl.
  - now left.
  - destruct Hi; simpl; [now left | now right].
Qed.



End Workflow.

End WorkflowFacts.

(** * Facts about server.py *)

Module ServerFacts.

Import Py Server.
Local Open Scope string_scope.

Lemma send_all_eq (link : websocket -> notice -> outcome unit)
    (conns : list websocket) (message : notice) (w : list (websocket * notice)) :
  send_all link conns message w =
  (w ++ map (fun ws => (ws, message))
          (filter (fun ws => returns (link ws message)) conns))%list.
Proof.
  revert w; induction conns as [|c conns IH]; intros w; simpl.
  - now rewrite app_nil_r.
  - unfold send_text. destruct (link c message); simpl; rewrite IH.
    + now rewrite <- app_assoc.
    + reflexivity.
Qed.

Lemma existsb_eqb_In (x : websocket) (l : list websocket) :
  existsb (Nat.eqb x) l = true <-> In x l.
Proof.
  rewrite existsb_exists. split.
  - intros (y & Hy & E). apply Nat.eqb_eq in E. now subst.
  - intros H. exists x. split; [exact H | apply Nat.eqb_refl].
Qed.

Lemma remove_first_length (x : websocket) (l : list websocket) :
  In x l -> S (List.length (remove_first x l)) = List.length l.
Proof.
  induction l as [|y l IH]; simpl; [tauto|].
  destruct (Nat.eqb x y) eqn:E; [reflexivity|].
  intros [->|H]; [now rewrite Nat.eqb_refl in E|].
  simpl. now rewrite IH.
Qed.

Section Tasks.
Variable link : websocket -> notice -> outcome unit.
Variable new_commerce_agent : outcome unit.
Variable commerce_execute_task : string -> value -> string -> outcome value.
Variable new_ride_agent : outcome unit.
Variable compare_rides : value -> value -> outcome value.
Variable new_pharmacy_agent : outcome unit.
Variable compare_prices : value -> string -> outcome value.
Variable new_coordinator_agent : outcome unit.
Variable make_agent : string -> outcome unit.
Variable agent_run : string -> outcome string.
Variable order_task : string -> string -> string -> string -> outcome value.
Variable book_cheapest_ride : value -> value -> outcome value.
Variable json_dumps : value -> outcome string.
Variable repr : value -> string.

Local Abbreviation dispatch' :=
  (dispatch link new_commerce_agent commerce_execute_task new_ride_agent
     compare_rides new_pharmacy_agent compare_prices new_coordinator_agent
     make_agent agent_run order_task book_cheapest_ride repr).

(** The dispatch broadcasts progress lines only. *)
Lemma dispatch_announced (payload : TaskPayload) (st : server) :
  exists progress,
    announced (snd (dispatch' payload st)) = (announced st ++ progress)%list /\
    Forall (fun n => is_terminal n = false) progress.
Proof.
  unfold dispatch.
  repeat match goal with
         | |- context [if String.eqb ?a ?b then _ else _] =>
             destruct (String.eqb a b)
         end;
    unfold mbind, lift, ret, broadcast;
    repeat match goal with
           | |- context [match ?x with Ok _ => _ | Raise _ => _ end] =>
               destruct x; cbn [fst snd announced]
           | |- context [if ?x then _ else _] =>
               destruct x; cbn [fst snd announced]
           end;
    cbn [fst snd announced];
    first [ exists []; split; [now rewrite app_nil_r | constructor]
          | eexists; split;
            [rewrite <- ?app_assoc; reflexivity | repeat constructor] ].
Qed.
End Tasks.

End ServerFacts.

(** * The properties of the design document *)

Import Py PyFacts CommerceAgent Reading CommerceFacts FenceFacts WorkflowFacts.
Import Server ServerFacts.
Local Open Scope string_scope.

(** ** The scenarios of the design, evaluated *)

(** 199.99 is 7036522574045512 / 2^45 as a float, and 4.5 is 9/2. *)
Example price_199_99 :
  parse_price str_of_str "$199.99" = S754_finite false 7036522574045512 (-45).
Proof. reflexivity. Qed.

(** 1299 is 5713062417924096 / 2^42. *)
Example price_thousands :
  parse_price str_of_str " 1,299 " = S754_finite false 5713062417924096 (-42).
Proof. reflexivity. Qed.

Example rating_4_5 :
  parse_rating str_of_str "4.5 stars" = S754_finite false 5066549580791808 (-50).
Proof. reflexivity. Qed.

Example price_zero_is_dropped :
  flt zero (parse_price str_of_str "0.00") = false.
Proof. reflexivity. Qed.

Example scenario_1 :
  let p := parse_result sample_loads sample_repr "Amazon" phone_text empty_world in
  status (fst p) = "success" /\
  map numeric_price (returned_items (fst p) (snd p))
  = [S754_finite false 7036522574045512 (-45)] /\
  map numeric_rating (returned_items (fst p) (snd p))
  = [S754_finite false 5066549580791808 (-50)].
Proof. vm_compute. auto. Qed.

Example scenario_2 :
  choose_winner "A" "B" (item_of "100" "4.0") (item_of "90" "4.0")
  = Ok (Some "B", "B is cheaper.").
Proof. reflexivity. Qed.

Example scenario_3 :
  choose_winner "A" "B" (item_of "100" "4.0") (item_of "100" "4.0")
  = Ok (Some "B", "Prices equal, but B has better rating.").
Proof. reflexivity. Qed.

Example scenario_4 :
  choose_winner "A" "B" (item_of "100" "4.0") VNone
  = Ok (Some "A", "Only found on A.").
Proof. reflexivity. Qed.

(** ** Result parsing *)

(** C3, as the code has it.  Parsing returns a result for every output and
    keeps the raw text.  The status is "success" exactly when the output
    holds a list of objects: the text left by the fence step opens a list
    or an object, [json.loads] accepts it and every decoded candidate is an
    object.  In every other case - among them every fault of the decoder,
    of whatever kind - the status is "failed", the items are empty and
    there is no best item. *)
Theorem parse_result_status (json_loads : string -> outcome value)
    (repr : value -> string) (app output : string) (w : world) :
  let r := fst (parse_result json_loads repr app output w) in
  let w' := snd (parse_result json_loads repr app output w) in
  raw_response r = output /\
  (status r = "success" <-> exists l, decodes_to json_loads output l) /\
  (status r <> "success" ->
   status r = "failed" /\ returned_items r w' = [] /\ best_item r = VNone) /\
  (forall js e, strip_fence (strip output) = Ok js -> json_loads js = Raise e ->
                status r = "failed").
Proof.
  cbv zeta.
  destruct (parse_result_cases json_loads repr app output w)
    as [(h' & E & N) | (l & sorted & Dc & _ & _ & _ & E)]; rewrite E; simpl.
  - split; [reflexivity|]. split.
    + split; [discriminate|]. intros [l Hl]. now destruct (N l).
    + split; [|reflexivity]. intros _. split; [reflexivity|]. split; [|reflexivity].
      unfold returned_items, deref; simpl. now rewrite nth_middle.
  - split; [reflexivity|]. split.
    + split; [now exists l | reflexivity].
    + split; [congruence|].
      intros js e F D. destruct Dc as (js' & v & F' & _ & D' & _).
      rewrite F in F'. injection F' as <-. rewrite D in D'. discriminate.
Qed.

(** C3, where the sentence of the design fails: on the output [[1]] the
    decoder succeeds and the status is "failed", since the candidate [1] is
    not an object and the loop over the candidates raises. *)
Lemma decoded_but_failed :
  strip_fence (strip "[1]") = Ok "[1]" /\
  sample_loads "[1]" = Ok (VList [VInt 1]) /\
  status (fst (parse_result sample_loads sample_repr "Amazon" "[1]" empty_world))
  = "failed".
Proof. vm_compute. auto. Qed.



(** C9, as the code has it.  For a text without three backticks in a row,
    the parse of the text inside a json fence and the parse of the text
    itself give the same status, the same items and the same best item. *)
Theorem fenced_parses_alike (json_loads : string -> outcome value)
    (repr : value -> string) (app t : string) (w : world) :
  contains "```" t = false ->
  let a := parse_result json_loads repr app (fenced t) w in
  let b := parse_result json_loads repr app t w in
  status (fst a) = status (fst b) /\
  returned_items (fst a) (snd a) = returned_items (fst b) (snd b) /\
  best_item (fst a) = best_item (fst b).
Proof.
  unfold contains. destruct (find "```" t) eqn:F; [discriminate|]. intros _.
  cbv zeta. rewrite !parse_result_eq. cbv zeta.
  rewrite strip_fenced, (strip_fence_fenced _ F), (strip_fence_plain _ F).
  destruct (startswith "[" (strip t) || startswith "{" (strip t)); [|auto].
  destruct (json_loads (strip t)) as [v|e]; [|auto].
  destruct (iterate _) as [l|e]; [|auto].
  destruct (fst (collected repr l)); [|auto].
  destruct (sort_by_key _); auto.
Qed.

Lemma fenced_parses_alike_witness :
  let a := parse_result sample_loads sample_repr "Amazon" (fenced two_items_text)
             empty_world in
  let b := parse_result sample_loads sample_repr "Amazon" two_items_text
             empty_world in
  status (fst a) = status (fst b) /\
  returned_items (fst a) (snd a) = returned_items (fst b) (snd b) /\
  best_item (fst a) = best_item (fst b).
Proof.
  apply (@fenced_parses_alike sample_loads sample_repr "Amazon" two_items_text
           empty_world).
  vm_compute. reflexivity.
Defined.

(** C9, where the sentence of the design fails: an item list whose title
    holds three backticks.  Parsed as it is, the text between the first two
    fences, [[]], is decoded: success without items.  Inside a json fence
    the text is cut at the first inner fence and the decoder refuses the
    rest: failed. *)
Lemma fence_in_title :
  status (fst (parse_result sample_loads sample_repr "Amazon"
                 (fenced backticks_text) empty_world)) = "failed" /\
  status (fst (parse_result sample_loads sample_repr "Amazon"
                 backticks_text empty_world)) = "success".
Proof. vm_compute. auto. Qed.

(** ** Winner selection *)



(** ** Session faults *)

(** C1, what the code does: [agent.run()] is awaited before the [try]
    block, so a fault of the agent leaves [perform_search] as a fault, no
    result is built, and the loop over the platforms ends there - the
    second platform is never searched. *)
Theorem session_fault_propagates (agent_run : string -> outcome string)
    (json_loads : string -> outcome value) (repr : value -> string)
    (t : task) (query : string) (w : world) (e : exn) :
  (forall goal, agent_run goal = Raise e) ->
  let first := hd "" (fst (platforms_of t)) in
  perform_search true agent_run json_loads repr first query
    (snd (platforms_of t)) w
  = (Raise e, emit (SessionEnd first) (emit (SessionBegin first) w)) /\
  main_async true agent_run json_loads repr t query w
  = (Raise e, emit (SessionEnd first) (emit (SessionBegin first) w)).
Proof.
  intros H. cbv zeta. unfold main_async.
  destruct t; cbn [platforms_of fst snd hd run_platforms];
    unfold perform_search; cbn [negb]; rewrite !H; auto.
Qed.

Lemma session_fault_propagates_witness :
  main_async true faulty_agent sample_loads sample_repr Shopping "phone"
    empty_world
  = (Raise (Exn RuntimeError "device offline"),
     World [] [SessionBegin "Amazon"; SessionEnd "Amazon"]).
Proof.
  apply (@session_fault_propagates faulty_agent sample_loads sample_repr
           Shopping "phone" empty_world (Exn RuntimeError "device offline")).
  reflexivity.
Defined.

(** The sibling session helper of the event coordinator does contain the
    fault of the agent: it answers [False]. *)
Lemma whatsapp_fault_contained (make_agent : string -> outcome unit)
    (agent_run : string -> outcome string) (phone_name message : string)
    (e : exn) :
  make_agent (EventCoordinator.whatsapp_goal phone_name message) = Ok tt ->
  agent_run (EventCoordinator.whatsapp_goal phone_name message) = Raise e ->
  EventCoordinator.run_whatsapp_task make_agent agent_run phone_name message
  = Ok false.
Proof.
  intros Hm Hr. unfold EventCoordinator.run_whatsapp_task.
  now rewrite Hm, Hr.
Qed.

(** ** Numeric extraction *)




(** ** The subscriber registry *)

(** C4, as the code has it.  Removing a registered connection takes its
    first entry out of the registry and returns.  Removing a connection
    that is not registered - never connected, or already removed - raises
    [ValueError] out of [disconnect]; the registry stays as it was. *)
Theorem disconnect_registered_only (ws : websocket) (st : server) :
  (In ws (active_connections st) ->
   disconnect ws st =
   (Ok tt, ServerState (remove_first ws (active_connections st)) (wire st)
                       (announced st)) /\
   S (List.length (remove_first ws (active_connections st)))
   = List.length (active_connections st)) /\
  (~ In ws (active_connections st) ->
   disconnect ws st
   = (Raise (Exn ValueError "list.remove(x): x not in list"), st)).
Proof.
  unfold disconnect. split; intros H.
  - rewrite (proj2 (existsb_eqb_In ws (active_connections st)) H).
    split; [reflexivity | now apply remove_first_length].
  - destruct (existsb (Nat.eqb ws) (active_connections st)) eqn:E;
      [|reflexivity].
    apply existsb_eqb_In in E. contradiction.
Qed.

Lemma disconnect_registered_only_witness :
  disconnect 7 (ServerState [7; 8] [] []) = (Ok tt, ServerState [8] [] []) /\
  disconnect 9 (ServerState [7; 8] [] [])
  = (Raise (Exn ValueError "list.remove(x): x not in list"),
     ServerState [7; 8] [] []).
Proof.
  destruct (disconnect_registered_only 7 (ServerState [7; 8] [] [])) as [H _].
  destruct (disconnect_registered_only 9 (ServerState [7; 8] [] [])) as [_ H'].
  split.
  - apply H. simpl. auto.
  - apply H'. simpl. intros [E|[E|[]]]; discriminate.
Defined.

(** C4, where the sentence of the design fails: a connection is
    registered and removed; the second removal raises, and so does the
    removal of a connection that never was registered. *)
Lemma second_disconnect_raises :
  let st1 := snd (connect sample_accept 7 idle_server) in
  let st2 := snd (disconnect 7 st1) in
  fst (disconnect 7 st1) = Ok tt /\
  fst (disconnect 7 st2)
  = Raise (Exn ValueError "list.remove(x): x not in list") /\
  fst (disconnect 9 st1)
  = Raise (Exn ValueError "list.remove(x): x not in list").
Proof. vm_compute. auto. Qed.

(** ** Broadcast *)



(** ** Task notices *)

Section TaskNotices.
Variable link : websocket -> notice -> outcome unit.
Variable new_commerce_agent : outcome unit.
Variable commerce_execute_task : string -> value -> string -> outcome value.
Variable new_ride_agent : outcome unit.
Variable compare_rides : value -> value -> outcome value.
Variable new_pharmacy_agent : outcome unit.
Variable compare_prices : value -> string -> outcome value.
Variable new_coordinator_agent : outcome unit.
Variable make_agent : string -> outcome unit.
Variable agent_run : string -> outcome string.
Variable order_task : string -> string -> string -> string -> outcome value.
Variable book_cheapest_ride : value -> value -> outcome value.
Variable json_dumps : value -> outcome string.
Variable repr : value -> string.

(** C5.  For every payload and whatever the agents and [json.dumps] do -
    return or raise - the task runner returns without a fault, and what it
    broadcasts is the start notice, then progress lines, then one closing
    notice: a result, the no-data failure or an error.  Exactly one of the
    notices it broadcasts closes the task. *)
Theorem one_terminal_notice (payload : TaskPayload) (st : server) :
  let run := run_agent_task link new_commerce_agent commerce_execute_task
               new_ride_agent compare_rides new_pharmacy_agent compare_prices
               new_coordinator_agent make_agent agent_run order_task
               book_cheapest_ride json_dumps repr payload st in
  fst run = Ok tt /\
  exists progress last,
    announced (snd run)
    = (announced st ++ Starting (persona payload) :: progress ++ [last])%list /\
    Forall (fun n => is_terminal n = false) progress /\
    is_terminal last = true /\
    terminal_count (Starting (persona payload) :: progress ++ [last]) = 1%nat.
Proof.
  cbv zeta.
  destruct (run_agent_task _ _ _ _ _ _ _ _ _ _ _ _ _ _ payload st)
    as [o st'] eqn:E.
  revert E. unfold run_agent_task, task_body.
  unfold mbind at 1. unfold broadcast at 1.
  set (st1 := ServerState _ _ _).
  assert (Hc : forall progress last,
             Forall (fun n => is_terminal n = false) progress ->
             is_terminal last = true ->
             terminal_count (Starting (persona payload) :: progress ++ [last])
             = 1%nat).
  { intros progress last Hp Hl. unfold terminal_count. cbn [filter is_terminal].
    rewrite filter_app. cbn [filter]. rewrite Hl.
    rewrite length_app. cbn [List.length].
    replace (filter is_terminal progress) with (@nil notice); [reflexivity|].
    symmetry. induction Hp as [|n l Hn Hl' IH]; simpl; [reflexivity|].
    now rewrite Hn. }
  destruct (dispatch_announced link new_commerce_agent commerce_execute_task
              new_ride_agent compare_rides new_pharmacy_agent compare_prices
              new_coordinator_agent make_agent agent_run order_task
              book_cheapest_ride repr payload st1) as (progress & Ha & Hp).
  unfold mbind at 1.
  destruct (dispatch _ _ _ _ _ _ _ _ _ _ _ _ _ payload st1)
    as [[result|e] st2]; cbn [snd] in Ha.
  - destruct (truthy result).
    + unfold mbind, lift. destruct (json_dumps result) as [text|e];
        unfold broadcast; intros [= <- <-]; cbn [fst snd announced];
        (split; [reflexivity|]).
      * exists progress, (TaskComplete text). rewrite Ha. subst st1.
        cbn [announced]. rewrite <- !app_assoc. auto.
      * exists progress, (ErrorNotice (exn_text e)). rewrite Ha. subst st1.
        cbn [announced]. rewrite <- !app_assoc. auto.
    + unfold broadcast; intros [= <- <-]; cbn [fst snd announced].
      split; [reflexivity|].
      exists progress, TaskFailedNoData. rewrite Ha. subst st1.
      cbn [announced]. rewrite <- !app_assoc. auto.
  - unfold broadcast; intros [= <- <-]; cbn [fst snd announced].
    split; [reflexivity|].
    exists progress, (ErrorNotice (exn_text e)). rewrite Ha. subst st1.
    cbn [announced]. rewrite <- !app_assoc. auto.
Qed.

End TaskNotices.

Lemma one_terminal_notice_witness :
  announced (snd (run_agent_task sample_link (Ok tt) sample_execute_task
                    (Ok tt) (fun _ _ => Ok VNone) (Ok tt) (fun _ _ => Ok VNone)
                    (Ok tt) (fun _ => Ok tt) sample_agent
                    (fun _ _ _ _ => Ok VNone) (fun _ _ => Ok VNone)
                    sample_dumps sample_repr sample_payload idle_server))
  = [Starting "shopper";
     Progress "Searching for phone on Amazon/Flipkart...";
     Progress "Amazon failed, trying Flipkart...";
     TaskComplete "<object>"] /\
  fst (run_agent_task sample_link (Ok tt) sample_execute_task
         (Ok tt) (fun _ _ => Ok VNone) (Ok tt) (fun _ _ => Ok VNone)
         (Ok tt) (fun _ => Ok tt) sample_agent
         (fun _ _ _ _ => Ok VNone) (fun _ _ => Ok VNone)
         sample_dumps sample_repr sample_payload idle_server) = Ok tt.
Proof.
  split; [vm_compute; reflexivity|].
  apply (one_terminal_notice sample_link (Ok tt) sample_execute_task
           (Ok tt) (fun _ _ => Ok VNone) (Ok tt) (fun _ _ => Ok VNone)
           (Ok tt) (fun _ => Ok tt) sample_agent
           (fun _ _ _ _ => Ok VNone) (fun _ _ => Ok VNone)
           sample_dumps sample_repr sample_payload idle_server).
Defined.

(** ** One session at a time *)





(** * Further facts about the numeric extraction *)

Module NormalizerFacts.

Import Py PyFacts CommerceAgent Reading Notions FenceFacts.
Local Open Scope string_scope.

(** ** Removing one character *)

Lemma prefix_single (c d : ascii) (s : string) :
  prefix (String c "") (String d s) = Ascii.eqb c d.
Proof.
  simpl. destruct (ascii_dec c d) as [->|N].
  - rewrite Ascii.eqb_refl. now destruct s.
  - symmetry. now apply Ascii.eqb_neq.
Qed.

Lemma remove_char_append (c : ascii) (a b : string) :
  remove_char c (a ++ b) = remove_char c a ++ remove_char c b.
Proof.
  induction a as [|d a IH]; simpl; [reflexivity|].
  destruct (Ascii.eqb c d); simpl; now rewrite IH.
Qed.

Lemma remove_char_absent (c : ascii) (s : string) :
  find (String c "") s = None -> remove_char c s = s.
Proof.
  induction s as [|d s IH]; [reflexivity|].
  rewrite find_eq, prefix_single. cbn [remove_char].
  destruct (Ascii.eqb c d); [discriminate|].
  destruct (find (String c "") s); [discriminate|].
  intros _. now rewrite IH.
Qed.

Lemma remove_char_found (c : ascii) (s : string) (i : nat) :
  find (String c "") s = Some i ->
  remove_char c s = take i s ++ remove_char c (drop (i + 1) s).
Proof.
  revert i; induction s as [|d s IH]; intros i.
  - destruct i; discriminate.
  - rewrite find_eq, prefix_single. cbn [remove_char].
    destruct (Ascii.eqb c d).
    + intros [= <-]. reflexivity.
    + destruct (find (String c "") s) as [j|]; [|discriminate].
      intros [= <-]. simpl. now rewrite (IH j eq_refl).
Qed.

Lemma split_fuel_not_nil (fuel : nat) (sep s : string) :
  split_fuel fuel sep s <> [].
Proof.
  destruct fuel; simpl; [discriminate|].
  destruct (find sep s); discriminate.
Qed.

(** [s.replace(c, '')] takes every [c] out. *)
Lemma replace_single (c : ascii) (s : string) :
  replace (String c "") "" s = remove_char c s.
Proof.
  unfold replace, split.
  assert (G : forall fuel s, (String.length s <= fuel)%nat ->
                join "" (split_fuel fuel (String c "") s) = remove_char c s).
  { clear s. induction fuel as [|fuel IH]; intros s L.
    - destruct s; [reflexivity | simpl in L; lia].
    - cbn [split_fuel].
      destruct (find (String c "") s) as [i|] eqn:F.
      + rewrite (remove_char_found _ _ F).
        pose proof (find_some_bound _ _ F) as B. simpl in B.
        assert (L' : (String.length (drop (i + 1) s) <= fuel)%nat)
          by (rewrite length_drop; lia).
        specialize (IH _ L').
        change (String.length (String c "")) with 1%nat.
        pose proof (split_fuel_not_nil fuel (String c "") (drop (i + 1) s)) as N.
        destruct (split_fuel fuel (String c "") (drop (i + 1) s)) as [|x l];
          [congruence|].
        cbn [join]. cbn [join] in IH. rewrite <- IH. reflexivity.
      + simpl. symmetry. now apply remove_char_absent. }
  now apply G.
Qed.

(** ** The search for the numeral *)

Lemma search_numeral_skip (a s : string) :
  has_digit a = false -> search_numeral (a ++ s) = search_numeral s.
Proof.
  induction a as [|c a IH]; [reflexivity|].
  cbn [has_digit append]. intros H. apply orb_false_iff in H.
  destruct H as [Hc Ha].
  cbn [search_numeral].
  assert (N : match_numeral (String c (a ++ s)) = None)
    by (apply match_numeral_none; exact Hc).
  rewrite N. now apply IH.
Qed.

Lemma all_space_no_digit (t : string) : all_space t = true -> has_digit t = false.
Proof.
  induction t as [|c t IH]; [reflexivity|]. simpl.
  intros H. apply andb_true_iff in H. destruct H as [Hc Ht].
  now rewrite (space_not_digit _ Hc), IH.
Qed.

Lemma space_not_dot (c : ascii) : is_space c = true -> Ascii.eqb c "." = false.
Proof.
  destruct c as [[] [] [] [] [] [] [] []]; vm_compute; congruence.
Qed.

(** Text that does not go on with a digit ends the run of digits. *)
Lemma span_digits_append (x t : string) :
  no_digit_ahead t = true ->
  span_digits (x ++ t) = (fst (span_digits x), snd (span_digits x) ++ t).
Proof.
  intros H. induction x as [|c x IH]; cbn [append span_digits].
  - destruct t as [|d t]; [reflexivity|].
    cbn [span_digits no_digit_ahead fst snd append] in *.
    apply negb_true_iff in H. now rewrite H.
  - destruct (is_digit c); [|reflexivity].
    rewrite IH. now destruct (span_digits x).
Qed.

Lemma span_digits_all (ds rest : string) :
  all_digits ds = true -> no_digit_ahead rest = true ->
  span_digits (ds ++ rest) = (ds, rest).
Proof.
  intros H R. induction ds as [|c ds IH]; cbn [append span_digits].
  - destruct rest as [|d rest]; [reflexivity|].
    cbn [span_digits no_digit_ahead] in *.
    apply negb_true_iff in R. now rewrite R.
  - cbn [all_digits] in H. apply andb_true_iff in H. destruct H as [Hc Hd].
    now rewrite Hc, (IH Hd).
Qed.

Lemma all_space_ahead (t : string) : all_space t = true -> no_digit_ahead t = true.
Proof.
  destruct t as [|c t]; [reflexivity|]. simpl. intros H.
  apply andb_true_iff in H. destruct H as [Hc _].
  now rewrite (space_not_digit _ Hc).
Qed.

Lemma match_numeral_append_space (x t : string) :
  all_space t = true -> match_numeral (x ++ t) = match_numeral x.
Proof.
  intros H. unfold match_numeral.
  rewrite (span_digits_append x _ (all_space_ahead _ H)).
  destruct (span_digits x) as [ds rest]. cbn [fst snd].
  destruct ds as [|d ds]; [reflexivity|].
  destruct rest as [|c rest].
  - cbn [append]. destruct t as [|c t]; [reflexivity|].
    cbn [all_space] in H. apply andb_true_iff in H. destruct H as [Hc _].
    destruct c as [[] [] [] [] [] [] [] []]; try reflexivity; discriminate Hc.
  - cbn [append].
    destruct c as [[] [] [] [] [] [] [] []]; try reflexivity.
    rewrite (span_digits_append rest _ (all_space_ahead _ H)).
    now destruct (span_digits rest) as [[|f fs] r].
Qed.

Lemma search_numeral_append_space (x t : string) :
  all_space t = true -> search_numeral (x ++ t) = search_numeral x.
Proof.
  intros H. induction x as [|c x IH].
  - cbn [append]. transitivity (@None string); [|reflexivity].
    apply search_numeral_none. now apply all_space_no_digit.
  - change (String c x ++ t) with (String c (x ++ t)).
    cbn [search_numeral].
    change (String c (x ++ t)) with (String c x ++ t).
    rewrite (match_numeral_append_space (String c x) _ H).
    now rewrite IH.
Qed.

Lemma lstrip_split (s : string) :
  exists ws, all_space ws = true /\ s = ws ++ lstrip s.
Proof.
  induction s as [|c s (ws & Hw & E)]; [now exists ""|].
  simpl. destruct (is_space c) eqn:Hc.
  - exists (String c ws). simpl. rewrite Hc, Hw. split; [reflexivity|].
    now rewrite <- E.
  - now exists "".
Qed.

Lemma rstrip_split (s : string) :
  exists ws, all_space ws = true /\ s = rstrip s ++ ws.
Proof.
  induction s as [|c s (ws & Hw & E)]; [now exists ""|].
  simpl. destruct (rstrip s) as [|d r] eqn:R.
  - destruct (is_space c) eqn:Hc.
    + exists (String c ws). simpl. rewrite Hc, Hw. split; [reflexivity|].
      now rewrite E at 1.
    + exists ws. split; [exact Hw|]. simpl. now rewrite E at 1.
  - exists ws. split; [exact Hw|]. simpl. now rewrite E at 1.
Qed.

(** The numeral found does not depend on the white space around. *)
Lemma search_numeral_strip (s : string) :
  search_numeral (strip s) = search_numeral s.
Proof.
  unfold strip.
  destruct (lstrip_split (rstrip s)) as (ws & Hw & E).
  destruct (rstrip_split s) as (ws' & Hw' & E').
  rewrite E' at 2. rewrite search_numeral_append_space by exact Hw'.
  rewrite E at 2. rewrite search_numeral_skip; [reflexivity|].
  now apply all_space_no_digit.
Qed.

Lemma has_digit_remove_char (a : string) :
  has_digit a = false -> has_digit (remove_char "," a) = false.
Proof.
  induction a as [|c a IH]; [reflexivity|]. cbn [has_digit remove_char].
  intros H. apply orb_false_iff in H. destruct H as [Hc Ha].
  destruct (Ascii.eqb "," c); cbn [has_digit]; rewrite ?Hc; now apply IH.
Qed.

Lemma all_space_remove_char (t : string) :
  all_space t = true -> all_space (remove_char "," t) = true.
Proof.
  induction t as [|c t IH]; [reflexivity|]. cbn [all_space remove_char].
  intros H. apply andb_true_iff in H. destruct H as [Hc Ht].
  destruct (Ascii.eqb "," c); cbn [all_space]; rewrite ?Hc; now apply IH.
Qed.

Lemma all_digits_remove_char (ds : string) :
  all_digits ds = true -> remove_char "," ds = ds.
Proof.
  induction ds as [|c ds IH]; [reflexivity|]. cbn [all_digits remove_char].
  intros H. apply andb_true_iff in H. destruct H as [Hc Hd].
  destruct (Ascii.eqb "," c) eqn:E.
  - apply Ascii.eqb_eq in E. subst c. discriminate Hc.
  - now rewrite IH.
Qed.

(** The numeral at the head of a text. *)
Lemma match_numeral_decimal (ip fp rest : string) :
  all_digits ip = true -> ip <> "" ->
  all_digits fp = true -> fp <> "" ->
  no_digit_ahead rest = true ->
  match_numeral (ip ++ "." ++ fp ++ rest) = Some (ip ++ "." ++ fp).
Proof.
  intros Hi Ni Hf Nf Hr. unfold match_numeral.
  rewrite (span_digits_all ip ("." ++ fp ++ rest) Hi eq_refl).
  destruct ip as [|c ip]; [congruence|].
  cbn [append]. rewrite (span_digits_all fp rest Hf Hr).
  destruct fp as [|f fp]; [congruence|]. reflexivity.
Qed.

Lemma match_numeral_integer (ip rest : string) :
  all_digits ip = true -> ip <> "" ->
  no_numeral_ahead rest = true ->
  match_numeral (ip ++ rest) = Some ip.
Proof.
  intros Hi Ni Hr. unfold match_numeral.
  assert (Hd : no_digit_ahead rest = true).
  { destruct rest as [|c rest]; [reflexivity|]. simpl in *.
    now apply andb_true_iff in Hr. }
  rewrite (span_digits_all ip rest Hi Hd).
  destruct ip as [|c ip]; [congruence|].
  destruct rest as [|d rest]; [reflexivity|].
  cbn [no_numeral_ahead] in Hr. apply andb_true_iff in Hr.
  destruct Hr as [_ Hr]. apply negb_true_iff in Hr.
  destruct (Ascii.eqb d ".") eqn:E.
  - apply Ascii.eqb_eq in E. subst d. cbn [andb] in Hr.
    apply negb_false_iff in Hr.
    destruct rest as [|e rest]; [reflexivity|].
    cbn [no_digit_ahead] in Hr. apply negb_true_iff in Hr.
    cbn [span_digits]. now rewrite Hr.
  - destruct d as [[] [] [] [] [] [] [] []]; try reflexivity.
    discriminate E.
Qed.

Lemma search_numeral_head (x m : string) :
  match_numeral x = Some m -> search_numeral x = Some m.
Proof. intros H. destruct x; cbn [search_numeral]; now rewrite H. Qed.

Lemma find_dot_after_digits (ip rest : string) :
  all_digits ip = true ->
  find "." (ip ++ "." ++ rest) = Some (String.length ip).
Proof.
  induction ip as [|c ip IH].
  { intros _. change ("" ++ "." ++ rest) with (String "." rest).
    now rewrite find_eq, prefix_single. }
  cbn [all_digits]. intros H. apply andb_true_iff in H. destruct H as [Hc Hi].
  change (String c ip ++ "." ++ rest) with (String c (ip ++ "." ++ rest)).
  rewrite find_cons_miss.
  - now rewrite (IH Hi).
  - rewrite prefix_single. apply Ascii.eqb_neq. intros <-. discriminate Hc.
Qed.

(** [float()] of a decimal: the digits as one integer over the power of
    ten of the fraction length, rounded once. *)
Lemma float_of_numeral_decimal (ip fp : string) :
  all_digits ip = true ->
  float_of_numeral (ip ++ "." ++ fp) =
  fdiv (float_of_Z (digits_val 0 (ip ++ fp)))
       (float_of_Z (10 ^ Z.of_nat (String.length fp))).
Proof.
  intros H. unfold float_of_numeral.
  rewrite (find_dot_after_digits ip fp H).
  rewrite take_append.
  change (drop (S (String.length ip)) (ip ++ "." ++ fp))
    with (drop (S (String.length ip)) (ip ++ String "." fp)).
  replace (drop (S (String.length ip)) (ip ++ String "." fp)) with fp;
    [reflexivity|].
  clear H. induction ip as [|c ip IH]; [reflexivity | exact IH].
Qed.

Lemma find_dot_absent (ip : string) :
  all_digits ip = true -> find "." ip = None.
Proof.
  induction ip as [|c ip IH]; [reflexivity|].
  cbn [all_digits]. intros H. apply andb_true_iff in H. destruct H as [Hc Hi].
  rewrite find_cons_miss.
  - now rewrite (IH Hi).
  - rewrite prefix_single. apply Ascii.eqb_neq. intros <-. discriminate Hc.
Qed.

Lemma float_of_numeral_integer (ip : string) :
  all_digits ip = true ->
  float_of_numeral ip = fdiv (float_of_Z (digits_val 0 ip)) (float_of_Z 1).
Proof.
  intros H. unfold float_of_numeral. rewrite (find_dot_absent ip H).
  now rewrite append_nil_r.
Qed.

End NormalizerFacts.

(** * Further properties of the three files *)

Import Notions NormalizerFacts.

(** ** The numeric extraction *)

(** X1.  The price extractor does not see thousands separators: a comma
    anywhere in the text changes nothing. *)
Theorem price_ignores_commas (a b : string) :
  parse_price str_of_str (a ++ "," ++ b) = parse_price str_of_str (a ++ b).
Proof.
  unfold parse_price, str_of_str. cbn [bind].
  rewrite !replace_single, !remove_char_append. reflexivity.
Qed.

(** X2.  What stands before the first digit - a currency sign, words, a
    minus sign - and white space at the end change neither the price nor
    the rating that is read. *)
Theorem extraction_ignores_surroundings (a s t : string) :
  has_digit a = false -> all_space t = true ->
  parse_price str_of_str (a ++ s ++ t) = parse_price str_of_str s /\
  parse_rating str_of_str (a ++ s ++ t) = parse_rating str_of_str s.
Proof.
  intros Ha Ht. unfold parse_price, parse_rating, str_of_str. cbn [bind].
  rewrite !search_numeral_strip.
  rewrite !replace_single, !remove_char_append.
  rewrite (search_numeral_skip _ _ (has_digit_remove_char _ Ha)).
  rewrite (search_numeral_append_space _ _ (all_space_remove_char _ Ht)).
  rewrite (search_numeral_skip _ _ Ha).
  rewrite (search_numeral_append_space _ _ Ht).
  split; reflexivity.
Qed.

Lemma extraction_ignores_surroundings_witness :
  parse_price str_of_str ("Rs. -" ++ "1,299.50" ++ " ")
  = parse_price str_of_str "1,299.50" /\
  parse_rating str_of_str ("Rs. -" ++ "1,299.50" ++ " ")
  = parse_rating str_of_str "1,299.50".
Proof.
  apply (@extraction_ignores_surroundings "Rs. -" "1,299.50" " ");
    reflexivity.
Defined.

(** X3.  Both extractors read the first numeral and nothing after it: a
    run of digits, with a dot and a second run of digits when these
    follow at once.  The float is the digits read as one integer over the
    power of ten of the fraction length, rounded once.  (For the price the
    rest must hold no comma, which would be taken out first.) *)
Theorem first_numeral_is_read (ip : string) :
  all_digits ip = true -> ip <> "" ->
  (forall rest, no_numeral_ahead rest = true ->
     parse_rating str_of_str (ip ++ rest)
     = fdiv (float_of_Z (digits_val 0 ip)) (float_of_Z 1) /\
     (find "," rest = None ->
      parse_price str_of_str (ip ++ rest)
      = fdiv (float_of_Z (digits_val 0 ip)) (float_of_Z 1))) /\
  (forall fp rest,
     all_digits fp = true -> fp <> "" -> no_digit_ahead rest = true ->
     parse_rating str_of_str (ip ++ "." ++ fp ++ rest)
     = fdiv (float_of_Z (digits_val 0 (ip ++ fp)))
            (float_of_Z (10 ^ Z.of_nat (String.length fp))) /\
     (find "," rest = None ->
      parse_price str_of_str (ip ++ "." ++ fp ++ rest)
      = fdiv (float_of_Z (digits_val 0 (ip ++ fp)))
             (float_of_Z (10 ^ Z.of_nat (String.length fp))))).
Proof.
  intros Hi Ni. split.
  - intros rest Hr.
    pose proof (@search_numeral_head _ _ (@match_numeral_integer ip rest Hi Ni Hr))
      as S.
    unfold parse_price, parse_rating, str_of_str. cbn [bind].
    rewrite !search_numeral_strip, S, (float_of_numeral_integer ip Hi).
    split; [reflexivity|]. intros Hc.
    rewrite replace_single, remove_char_append.
    rewrite (all_digits_remove_char _ Hi), (remove_char_absent _ _ Hc), S.
    now apply float_of_numeral_integer.
  - intros fp rest Hf Nf Hr.
    pose proof (@search_numeral_head _ _
                  (@match_numeral_decimal ip fp rest Hi Ni Hf Nf Hr)) as S.
    unfold parse_price, parse_rating, str_of_str. cbn [bind].
    rewrite !search_numeral_strip, S, (float_of_numeral_decimal ip fp Hi).
    split; [reflexivity|]. intros Hc.
    rewrite replace_single, !remove_char_append.
    rewrite (all_digits_remove_char _ Hi), (all_digits_remove_char _ Hf).
    rewrite (remove_char_absent _ _ Hc).
    change (remove_char "," ".") with ".". rewrite S.
    now apply float_of_numeral_decimal.
Qed.

Lemma first_numeral_is_read_witness :
  parse_rating str_of_str ("4" ++ "." ++ "5" ++ " stars")
  = fdiv (float_of_Z 45) (float_of_Z 10) /\
  parse_price str_of_str ("12" ++ ". each")
  = fdiv (float_of_Z 12) (float_of_Z 1).
Proof.
  destruct (@first_numeral_is_read "4" eq_refl ltac:(discriminate)) as [_ H].
  destruct (@first_numeral_is_read "12" eq_refl ltac:(discriminate)) as [H' _].
  split.
  - destruct (H "5" " stars" eq_refl ltac:(discriminate) eq_refl) as [R _].
    exact R.
  - destruct (H' ". each" eq_refl) as [_ R]. exact (R eq_refl).
Defined.

Module ParseFacts.

Import Py PyFacts CommerceAgent Reading Notions CommerceFacts WorkflowFacts.
Local Open Scope string_scope.

Section Parse.
Variable json_loads : string -> outcome value.
Variable repr : value -> string.

(** Lines 92-93 on a dictionary, in one step. *)
Lemma normalise_eq (d : dict) :
  normalise repr (VDict d) =
  Ok (VDict
        (dict_set "numeric_rating"
           (VFloat (parse_rating (str_value repr) (field "rating" (VStr "0") d)))
           (dict_set "numeric_price"
              (VFloat (parse_price (str_value repr)
                         (field "price" (VStr "999999") d))) d))).
Proof.
  unfold normalise, get_method, setitem, field.
  destruct (dict_lookup "price" d); cbn [bind];
    rewrite (@dict_lookup_set_other "rating" "numeric_price" _ d eq_refl);
    destruct (dict_lookup "rating" d); reflexivity.
Qed.

Lemma numeric_price_normalised (d : dict) (x : value) :
  normalise repr (VDict d) = Ok x ->
  subscript x "numeric_price" = Ok (VFloat (numeric_price x)) /\
  numeric_price x
  = parse_price (str_value repr) (field "price" (VStr "999999") d).
Proof.
  rewrite normalise_eq. intros [= <-]. unfold numeric_price, subscript.
  rewrite (@dict_lookup_set_other "numeric_price" "numeric_rating" _ _ eq_refl).
  rewrite dict_lookup_set_same. split; reflexivity.
Qed.

Lemma numeric_rating_normalised (d : dict) (x : value) :
  normalise repr (VDict d) = Ok x ->
  numeric_rating x
  = parse_rating (str_value repr) (field "rating" (VStr "0") d).
Proof.
  rewrite normalise_eq. intros [= <-]. unfold numeric_rating, subscript.
  now rewrite dict_lookup_set_same.
Qed.

Lemma classify_eq (d : dict) :
  exists x,
    normalise repr (VDict d) = Ok x /\
    classify repr (VDict d)
    = Ok (if flt zero (numeric_price x) then Some x else None).
Proof.
  destruct (normalise repr (VDict d)) as [x|e] eqn:N;
    [|rewrite normalise_eq in N; discriminate].
  exists x. split; [reflexivity|].
  destruct (@numeric_price_normalised d x N) as [Sb _].
  unfold classify. rewrite N. cbn [bind]. rewrite Sb. reflexivity.
Qed.

Lemma collected_kept (l : list value) :
  forallb isinstance_dict l = true -> snd (collected repr l) = kept repr l.
Proof.
  induction l as [|c l IH]; [reflexivity|].
  cbn [forallb]. intros H. apply andb_true_iff in H. destruct H as [Hc Hl].
  destruct c; try discriminate Hc.
  destruct (classify_eq d) as (x & N & C).
  cbn [collected kept flat_map]. rewrite C, N.
  destruct (collected repr l) as [o k] eqn:E. cbn [snd] in *.
  specialize (IH Hl). unfold kept in IH. rewrite <- IH.
  now destruct (flt zero (numeric_price x)).
Qed.

Lemma kept_positive (l : list value) :
  Forall (fun x => flt zero (numeric_price x) = true) (kept repr l).
Proof.
  induction l as [|c l IH]; [constructor|].
  unfold kept. cbn [flat_map]. apply Forall_app. split; [|exact IH].
  destruct (normalise repr c) as [x|]; [|constructor].
  destruct (flt zero (numeric_price x)) eqn:P; repeat constructor. exact P.
Qed.

Lemma deref_second (h : list (list value)) (a b : list value)
    (tr : list event) :
  deref (S (List.length h)) (World (h ++ [a; b]) tr) = b.
Proof.
  unfold deref; simpl.
  replace (h ++ [a; b])%list with ((h ++ [a]) ++ [b])%list
    by now rewrite <- app_assoc.
  replace (S (List.length h)) with (List.length (h ++ [a])%list)
    by (rewrite length_app; simpl; lia).
  apply nth_middle.
Qed.

(** The parse of an output that holds a list of objects. *)
Lemma parse_result_decoded (app output : string) (w : world)
    (l : list value) :
  decodes_to json_loads output l ->
  exists sorted,
    sort_by_key (kept repr l) = Ok sorted /\
    Forall is_item (kept repr l) /\
    parse_result json_loads repr app output w =
    (ResultData app "success" (S (List.length (heap w)))
                (hd VNone sorted) output,
     World (heap w ++ [[]; sorted]) (trace w)).
Proof.
  intros (js & v & F & St & D & It & All).
  pose proof (collected_items repr l) as Items.
  rewrite (collected_kept l All) in Items.
  destruct (sort_by_key_items Items) as (sorted & Srt & _ & _).
  exists sorted. split; [exact Srt|]. split; [exact Items|].
  rewrite parse_result_eq. cbv zeta. rewrite F, St, D, It.
  destruct (proj2 (collected_ok repr l) All).
  replace (fst (collected repr l)) with (@Ok unit tt)
    by (symmetry; now apply collected_ok).
  rewrite (collected_kept l All), Srt. reflexivity.
Qed.

(** A parse adds list objects to the store and touches nothing else. *)
Lemma parse_result_frame (app output : string) (w : world) :
  let r := fst (parse_result json_loads repr app output w) in
  let w' := snd (parse_result json_loads repr app output w) in
  firstn (List.length (heap w)) (heap w') = heap w /\
  trace w' = trace w /\
  (List.length (heap w) <= items r < List.length (heap w'))%nat.
Proof.
  cbv zeta. rewrite parse_result_eq. cbv zeta.
  assert (P : forall h', firstn (List.length (heap w)) (heap w ++ h') = heap w).
  { intros h'. rewrite firstn_app, Nat.sub_diag, firstn_all. simpl.
    apply app_nil_r. }
  repeat match goal with
         | |- context [match ?x with _ => _ end] => destruct x
         end;
    cbn [fst snd heap trace items]; rewrite P, length_app; simpl;
    (split; [reflexivity | split; [reflexivity | lia]]).
Qed.

End Parse.

End ParseFacts.

Import ParseFacts.

(** ** The parse of an agent's output *)

(** X4.  When the output holds a list of objects, the items of the result
    are the candidates that the loop keeps - each with its two numbers
    set - in some order, and each of them has a price above zero. *)
Theorem returned_items_are_kept (json_loads : string -> outcome value)
    (repr : value -> string) (app output : string) (w : world)
    (l : list value) :
  decodes_to json_loads output l ->
  let r := fst (parse_result json_loads repr app output w) in
  let w' := snd (parse_result json_loads repr app output w) in
  Permutation (kept repr l) (returned_items r w') /\
  Forall (fun x => flt zero (numeric_price x) = true) (returned_items r w').
Proof.
  intros Dc. cbv zeta.
  destruct (parse_result_decoded repr app w Dc) as (sorted & Srt & Items & E).
  rewrite E. cbn [fst snd]. unfold returned_items. cbn [items].
  rewrite deref_second.
  destruct (sort_by_key_items Items) as (sorted' & Srt' & Perm & _).
  rewrite Srt in Srt'. injection Srt' as <-.
  split; [exact Perm|].
  apply (Permutation_Forall Perm). apply kept_positive.
Qed.

Lemma returned_items_are_kept_witness :
  let l := match two_items with VList l => l | _ => [] end in
  let p := parse_result sample_loads sample_repr "Amazon" two_items_text
             empty_world in
  Permutation (kept sample_repr l) (returned_items (fst p) (snd p)) /\
  Forall (fun x => flt zero (numeric_price x) = true)
         (returned_items (fst p) (snd p)).
Proof.
  apply (@returned_items_are_kept sample_loads sample_repr "Amazon"
           two_items_text empty_world).
  exists two_items_text, two_items. repeat split; vm_compute; reflexivity.
Defined.



(** X6.  An output that is one JSON object is taken as a list of that one
    object: the status is "success", and the result holds the object with
    its two numbers set when its price is above zero, and nothing
    otherwise. *)
Theorem lone_object_is_one_candidate (json_loads : string -> outcome value)
    (repr : value -> string) (app output js : string) (d : dict)
    (w : world) :
  strip_fence (strip output) = Ok js ->
  startswith "[" js || startswith "{" js = true ->
  json_loads js = Ok (VDict d) ->
  let r := fst (parse_result json_loads repr app output w) in
  let w' := snd (parse_result json_loads repr app output w) in
  status r = "success" /\
  returned_items r w' = kept repr [VDict d] /\
  best_item r = hd VNone (kept repr [VDict d]) /\
  (List.length (returned_items r w') <= 1)%nat.
Proof.
  intros F St D. cbv zeta.
  assert (Dc : decodes_to json_loads output [VDict d]).
  { exists js, (VDict d). repeat split; auto. }
  destruct (parse_result_decoded repr app w Dc) as (sorted & Srt & Items & E).
  rewrite E. cbn [fst snd status best_item]. unfold returned_items.
  cbn [items]. rewrite deref_second.
  destruct (sort_by_key_items Items) as (sorted' & Srt' & Perm & _).
  rewrite Srt in Srt'. injection Srt' as <-.
  assert (L : (List.length (kept repr [VDict d]) <= 1)%nat).
  { unfold kept. cbn [flat_map]. rewrite app_nil_r.
    destruct (normalise repr (VDict d)) as [x|]; [|simpl; lia].
    destruct (flt zero (numeric_price x)); simpl; lia. }
  assert (Eq : sorted = kept repr [VDict d]).
  { destruct (kept repr [VDict d]) as [|x [|y k]].
    - now apply Permutation_nil.
    - now apply Permutation_length_1_inv.
    - simpl in L. lia. }
  rewrite Eq. repeat split; auto.
Qed.

Lemma lone_object_is_one_candidate_witness :
  let p := parse_result object_loads sample_repr "Amazon" object_text
             empty_world in
  status (fst p) = "success" /\
  returned_items (fst p) (snd p)
  = kept sample_repr [VDict [("price", VStr "Rs. 1,299")]] /\
  best_item (fst p)
  = hd VNone (kept sample_repr [VDict [("price", VStr "Rs. 1,299")]]) /\
  (List.length (returned_items (fst p) (snd p)) <= 1)%nat.
Proof.
  apply (@lone_object_is_one_candidate object_loads sample_repr "Amazon"
           object_text object_text [("price", VStr "Rs. 1,299")] empty_world);
    vm_compute; reflexivity.
Defined.

(** X7.  The two numbers of an item are always computed anew from its
    price and rating fields: what the agent wrote under [numeric_price] or
    [numeric_rating] is overwritten, every other field is left as it was,
    an item without a price counts as costing 999999 and an item without a
    rating as rated 0. *)
Theorem numbers_are_recomputed (repr : value -> string) (d : dict) :
  exists d',
    normalise repr (VDict d) = Ok (VDict d') /\
    numeric_price (VDict d')
    = parse_price (str_value repr) (field "price" (VStr "999999") d) /\
    numeric_rating (VDict d')
    = parse_rating (str_value repr) (field "rating" (VStr "0") d) /\
    (forall k, String.eqb k "numeric_price" = false ->
               String.eqb k "numeric_rating" = false ->
               dict_lookup k d' = dict_lookup k d) /\
    (dict_lookup "price" d = None ->
     numeric_price (VDict d') = fdiv (float_of_Z 999999) (float_of_Z 1)) /\
    (dict_lookup "rating" d = None -> numeric_rating (VDict d') = zero).
Proof.
  eexists. split; [apply normalise_eq|].
  pose proof (@numeric_price_normalised repr d _ (normalise_eq repr d)) as [_ P].
  pose proof (@numeric_rating_normalised repr d _ (normalise_eq repr d)) as R.
  split; [exact P|]. split; [exact R|]. split; [|split].
  - intros k K1 K2. now rewrite !dict_lookup_set_other.
  - intros N. rewrite P. unfold field. rewrite N. vm_compute. reflexivity.
  - intros N. rewrite R. unfold field. rewrite N. vm_compute. reflexivity.
Qed.

Module SessionFacts.

Import Py PyFacts CommerceAgent Reading Notions CommerceFacts WorkflowFacts
       ParseFacts.
Local Open Scope string_scope.

Section Sessions.
Variable agent_run : string -> outcome string.
Variable json_loads : string -> outcome value.
Variable repr : value -> string.

(** A session on a device that is there. *)
Lemma perform_search_eq (app query item_type : string) (w : world) :
  perform_search true agent_run json_loads repr app query item_type w =
  let w0 := emit (SessionEnd app) (emit (SessionBegin app) w) in
  match agent_run (task_goal app query item_type) with
  | Raise e => (Raise e, w0)
  | Ok output =>
      (Ok (fst (parse_result json_loads repr app output w0)),
       snd (parse_result json_loads repr app output w0))
  end.
Proof.
  unfold perform_search. cbn [negb]. cbv zeta.
  destruct (agent_run _); [|reflexivity].
  now destruct (parse_result _ _ _ _ _).
Qed.

Lemma perform_search_heap (avail : bool) (app query item_type : string)
    (w : world) :
  let o := fst (perform_search avail agent_run json_loads repr app query
                  item_type w) in
  let w' := snd (perform_search avail agent_run json_loads repr app query
                   item_type w) in
  firstn (List.length (heap w)) (heap w') = heap w /\
  match o with
  | Ok r => (List.length (heap w) <= items r < List.length (heap w'))%nat
  | Raise _ => heap w' = heap w
  end.
Proof.
  cbv zeta. destruct avail.
  - rewrite perform_search_eq. cbv zeta.
    destruct (agent_run _) as [output|e]; cbn [fst snd].
    + destruct (parse_result_frame json_loads repr app output
                  (emit (SessionEnd app) (emit (SessionBegin app) w)))
        as (H1 & _ & H2).
      cbn [emit heap] in H1, H2. auto.
    + cbn [emit heap]. split; [apply firstn_all | reflexivity].
  - unfold perform_search. cbn [negb fst snd].
    split; [apply firstn_all | reflexivity].
Qed.

(** Between the best items of two parses the selection always answers. *)
Lemma choose_winner_returns (A B : string) (a b : value) :
  a = VNone \/ is_item a -> b = VNone \/ is_item b ->
  exists v, choose_winner A B a b = Ok v.
Proof.
  intros [->|Ia] [->|Ib].
  - eexists. reflexivity.
  - eexists. now apply choose_winner_second.
  - eexists. now apply choose_winner_first.
  - destruct (choose_winner_both A B Ia Ib) as [text E]. eauto.
Qed.

End Sessions.

End SessionFacts.

Import SessionFacts.

(** ** Sessions and the store *)

(** X8.  A session only adds list objects to the store: the objects that
    were there are as they were, the items of its result are an object
    that was not there before, and a session that raises leaves the store
    as it was. *)
Theorem session_only_adds_objects (avail : bool)
    (agent_run : string -> outcome string)
    (json_loads : string -> outcome value) (repr : value -> string)
    (app query item_type : string) (w : world) :
  let o := fst (perform_search avail agent_run json_loads repr app query
                  item_type w) in
  let w' := snd (perform_search avail agent_run json_loads repr app query
                   item_type w) in
  firstn (List.length (heap w)) (heap w') = heap w /\
  match o with
  | Ok r => (List.length (heap w) <= items r < List.length (heap w'))%nat
  | Raise _ => heap w' = heap w
  end.
Proof. apply perform_search_heap. Qed.

(** X9.  The two results of a finished workflow are those of its two
    sessions, one after the other on the store; they refer to different
    list objects, and the items of the first are at the end what they
    were when its session ended. *)
Theorem results_have_their_own_items (avail : bool)
    (agent_run : string -> outcome string)
    (json_loads : string -> outcome value) (repr : value -> string)
    (t : task) (query : string) (w w' : world) (out : final_output) :
  main_async avail agent_run json_loads repr t query w = (Ok out, w') ->
  exists A B rA rB wA,
    fst (platforms_of t) = [A; B] /\
    details out = [(lower A, rA); (lower B, rB)] /\
    perform_search avail agent_run json_loads repr A query
      (snd (platforms_of t)) w = (Ok rA, wA) /\
    perform_search avail agent_run json_loads repr B query
      (snd (platforms_of t)) wA = (Ok rB, w') /\
    items rA <> items rB /\
    returned_items rA w' = returned_items rA wA.
Proof.
  unfold main_async.
  destruct (platforms_of t) as [platforms item_type] eqn:Pl.
  assert (T : exists A B, platforms = [A; B] /\
                          String.eqb (lower B) (lower A) = false).
  { destruct t; injection Pl as <- <-; eauto. }
  destruct T as (A & B & -> & N). cbn [run_platforms fst snd].
  pose proof (perform_search_heap agent_run json_loads repr avail A query
                item_type w) as HA.
  destruct (perform_search avail agent_run json_loads repr A query item_type w)
    as [[rA|e] wA] eqn:EA; [|discriminate].
  pose proof (perform_search_heap agent_run json_loads repr avail B query
                item_type wA) as HB.
  destruct (perform_search avail agent_run json_loads repr B query item_type wA)
    as [[rB|e] wB] eqn:EB; [|discriminate].
  cbv zeta in HA, HB. cbn [fst snd] in HA, HB.
  destruct HA as [_ HA]. destruct HB as [FB HB].
  cbn [results_set]. rewrite N.
  cbn [getitem_list nth_error bind].
  destruct (choose_winner A B _ _) as [v|e]; cbn [bind]; [|discriminate].
  intros [= <- <-]. cbn [details].
  exists A, B, rA, rB, wA. repeat split; auto.
  - lia.
  - unfold returned_items, deref. rewrite <- FB.
    rewrite nth_firstn.
    destruct (Nat.ltb_spec (items rA) (List.length (heap wA))); [reflexivity|lia].
Qed.

Lemma results_have_their_own_items_witness :
  exists out w',
    main_async true sample_agent sample_loads sample_repr Shopping "phone"
      empty_world = (Ok out, w') /\
    exists A B rA rB wA,
      fst (platforms_of Shopping) = [A; B] /\
      details out = [(lower A, rA); (lower B, rB)] /\
      perform_search true sample_agent sample_loads sample_repr A "phone"
        (snd (platforms_of Shopping)) empty_world = (Ok rA, wA) /\
      perform_search true sample_agent sample_loads sample_repr B "phone"
        (snd (platforms_of Shopping)) wA = (Ok rB, w') /\
      items rA <> items rB /\
      returned_items rA w' = returned_items rA wA.
Proof.
  eexists. eexists. split; [vm_compute; reflexivity|].
  apply (@results_have_their_own_items true sample_agent sample_loads
           sample_repr Shopping "phone" empty_world).
  vm_compute. reflexivity.
Defined.

(** X10.  On a device that is there the command-line workflow ends with a
    summary exactly when the agent answers in both sessions: whatever the
    two answers hold - no JSON at all, for one - parsing and the selection
    of the winner never raise. *)
Theorem workflow_ends_when_sessions_end
    (agent_run : string -> outcome string)
    (json_loads : string -> outcome value) (repr : value -> string)
    (t : task) (query : string) (w : world) :
  (exists out,
      fst (main_async true agent_run json_loads repr t query w) = Ok out) <->
  Forall (fun p => returns (agent_run (task_goal p query (snd (platforms_of t))))
                   = true)
         (fst (platforms_of t)).
Proof.
  unfold main_async.
  destruct (platforms_of t) as [platforms item_type] eqn:Pl.
  assert (T : exists A B, platforms = [A; B] /\
                          String.eqb (lower B) (lower A) = false).
  { destruct t; injection Pl as <- <-; eauto. }
  destruct T as (A & B & -> & N). cbn [run_platforms fst snd].
  rewrite perform_search_eq. cbv zeta.
  destruct (agent_run (task_goal A query item_type)) as [oA|eA] eqn:RA.
  2:{ cbn [fst]. split.
      - intros [out H]. discriminate H.
      - intros H. inversion H as [|? ? H1 _]. rewrite RA in H1.
        discriminate H1. }
  rewrite perform_search_eq. cbv zeta.
  destruct (agent_run (task_goal B query item_type)) as [oB|eB] eqn:RB.
  2:{ cbn [fst]. split.
      - intros [out H]. discriminate H.
      - intros H. inversion H as [|? ? _ H2]. inversion H2 as [|? ? H3 _].
        rewrite RB in H3. discriminate H3. }
  split; [intros _; repeat constructor; [now rewrite RA | now rewrite RB]|].
  intros _.
  cbn [results_set]. rewrite N.
  cbn [getitem_list nth_error bind]. unfold best_item_of.
  cbn [results_lookup]. rewrite String.eqb_refl, N, String.eqb_refl.
  match goal with
  | |- context [choose_winner A B (best_item (fst ?p)) (best_item (fst ?q))] =>
      destruct (@choose_winner_returns A B (best_item (fst p))
                  (best_item (fst q))) as [v E]
  end.
  - apply parse_result_best_item.
  - apply parse_result_best_item.
  - rewrite E. cbn [bind fst]. eauto.
Qed.

Module TransportFacts.

Import Py Server ServerFacts Notions.
Local Open Scope string_scope.

Lemma inbox_app (ws : websocket) (a b : list (websocket * notice)) :
  inbox ws (a ++ b) = (inbox ws a ++ inbox ws b)%list.
Proof. unfold inbox. now rewrite filter_app, map_app. Qed.

(** Of one broadcast a socket takes a copy for each of its entries. *)
Lemma inbox_frames (link : websocket -> notice -> outcome unit)
    (ws : websocket) (conns : list websocket) (n : notice) :
  inbox ws (frames link conns n)
  = if returns (link ws n) then repeat n (registered ws conns) else [].
Proof.
  induction conns as [|c conns IH].
  - cbn. now destruct (returns (link ws n)).
  - unfold frames, registered, inbox in *. cbn [filter count_occ].
    destruct (Nat.eq_dec c ws) as [->|N].
    + destruct (returns (link ws n)) eqn:R; [|exact IH].
      cbn [map filter fst]. rewrite Nat.eqb_refl. cbn [map snd repeat].
      now rewrite IH.
    + destruct (returns (link c n)); [|exact IH].
      cbn [map filter fst]. rewrite (proj2 (Nat.eqb_neq c ws) N). exact IH.
Qed.

Lemma inbox_flat_map (link : websocket -> notice -> outcome unit)
    (ws : websocket) (conns : list websocket) (ns : list notice) :
  inbox ws (flat_map (frames link conns) ns)
  = flat_map (fun n => if returns (link ws n)
                       then repeat n (registered ws conns) else []) ns.
Proof.
  induction ns as [|n ns IH]; [reflexivity|].
  cbn [flat_map]. now rewrite inbox_app, inbox_frames, IH.
Qed.

Lemma registered_remove_first (x ws : websocket) (l : list websocket) :
  registered x (remove_first ws l)
  = if Nat.eqb x ws then Nat.pred (registered x l) else registered x l.
Proof.
  unfold registered. induction l as [|y l IH].
  - cbn. now destruct (Nat.eqb x ws).
  - cbn [remove_first]. destruct (Nat.eqb ws y) eqn:E.
    + apply Nat.eqb_eq in E. subst y. cbn [count_occ].
      destruct (Nat.eq_dec ws x) as [->|N].
      * now rewrite Nat.eqb_refl.
      * destruct (Nat.eqb x ws) eqn:E'; [|reflexivity].
        apply Nat.eqb_eq in E'. now subst.
    + cbn [count_occ]. apply Nat.eqb_neq in E.
      destruct (Nat.eq_dec y x) as [->|N].
      * rewrite IH. rewrite (proj2 (Nat.eqb_neq x ws)); auto.
      * exact IH.
Qed.

Lemma remove_first_new (ws : websocket) (l : list websocket) :
  ~ In ws l -> remove_first ws (l ++ [ws]) = l.
Proof.
  induction l as [|y l IH]; intros H.
  - cbn. now rewrite Nat.eqb_refl.
  - cbn [app remove_first].
    rewrite (proj2 (Nat.eqb_neq ws y)) by (intros ->; apply H; now left).
    rewrite IH; [reflexivity|]. intros H'. apply H. now right.
Qed.

Lemma remove_first_appended (ws : websocket) (l : list websocket) :
  Permutation (remove_first ws (l ++ [ws])) l.
Proof.
  induction l as [|y l IH].
  - cbn. rewrite Nat.eqb_refl. constructor.
  - cbn [app remove_first]. destruct (Nat.eqb ws y) eqn:E.
    + apply Nat.eqb_eq in E. subst y. symmetry. apply Permutation_cons_append.
    + now constructor.
Qed.

Section Delivery.
Variable link : websocket -> notice -> outcome unit.

Lemma delivered_refl (st : server) : delivered link st st [].
Proof. unfold delivered. cbn [flat_map]. now rewrite !app_nil_r. Qed.

Lemma delivered_trans (st st1 st2 : server) (ns1 ns2 : list notice) :
  delivered link st st1 ns1 -> delivered link st1 st2 ns2 ->
  delivered link st st2 (ns1 ++ ns2).
Proof.
  intros (C1 & A1 & W1) (C2 & A2 & W2). unfold delivered.
  rewrite C2, A2, W2, C1, A1, W1, flat_map_app, <- !app_assoc. auto.
Qed.

Lemma broadcast_delivered (n : notice) (st : server) :
  delivered link st (snd (broadcast link n st)) [n].
Proof.
  unfold delivered, broadcast. cbn [snd active_connections wire announced].
  rewrite send_all_eq. cbn [flat_map]. rewrite app_nil_r. auto.
Qed.

Lemma only_ret {A} (a : A) : broadcasts_only link (ret a).
Proof. intros st. exists []. apply delivered_refl. Qed.

Lemma only_lift {A} (o : outcome A) : broadcasts_only link (lift o).
Proof. intros st. exists []. apply delivered_refl. Qed.

Lemma only_broadcast (n : notice) : broadcasts_only link (broadcast link n).
Proof. intros st. exists [n]. apply broadcast_delivered. Qed.

Lemma only_bind {A B} (m : M server A) (k : A -> M server B) :
  broadcasts_only link m -> (forall a, broadcasts_only link (k a)) ->
  broadcasts_only link (mbind m k).
Proof.
  intros Hm Hk st. unfold mbind. destruct (Hm st) as [ns1 D1].
  destruct (m st) as [[a|e] st1]; cbn [snd] in D1.
  - destruct (Hk a st1) as [ns2 D2]. exists (ns1 ++ ns2)%list.
    now apply (delivered_trans D1).
  - now exists ns1.
Qed.

Lemma only_catch {A} (m : M server A) (h : exn -> M server unit) :
  broadcasts_only link m -> (forall e, broadcasts_only link (h e)) ->
  broadcasts_only link
    (fun st => match m st with
               | (Ok _, st') => (Ok tt, st')
               | (Raise e, st') => h e st'
               end).
Proof.
  intros Hm Hh st. destruct (Hm st) as [ns1 D1].
  destruct (m st) as [[a|e] st1]; cbn [snd] in D1.
  - now exists ns1.
  - destruct (Hh e st1) as [ns2 D2]. exists (ns1 ++ ns2)%list.
    now apply (delivered_trans D1).
Qed.

Ltac only_broadcasts :=
  repeat first
    [ apply only_ret | apply only_lift | apply only_broadcast
    | apply only_bind; [|intros ?]
    | match goal with
      | |- context [if ?b then _ else _] => destruct b
      end ].

Variable new_commerce_agent : outcome unit.
Variable commerce_execute_task : string -> value -> string -> outcome value.
Variable new_ride_agent : outcome unit.
Variable compare_rides : value -> value -> outcome value.
Variable new_pharmacy_agent : outcome unit.
Variable compare_prices : value -> string -> outcome value.
Variable new_coordinator_agent : outcome unit.
Variable make_agent : string -> outcome unit.
Variable agent_run : string -> outcome string.
Variable order_task : string -> string -> string -> string -> outcome value.
Variable book_cheapest_ride : value -> value -> outcome value.
Variable json_dumps : value -> outcome string.
Variable repr : value -> string.

Local Abbreviation dispatch' :=
  (dispatch link new_commerce_agent commerce_execute_task new_ride_agent
     compare_rides new_pharmacy_agent compare_prices new_coordinator_agent
     make_agent agent_run order_task book_cheapest_ride repr).

Local Abbreviation run' :=
  (run_agent_task link new_commerce_agent commerce_execute_task new_ride_agent
     compare_rides new_pharmacy_agent compare_prices new_coordinator_agent
     make_agent agent_run order_task book_cheapest_ride json_dumps repr).

Lemma dispatch_only (payload : TaskPayload) :
  broadcasts_only link (dispatch' payload).
Proof. unfold dispatch. only_broadcasts. Qed.

Lemma run_agent_task_only (payload : TaskPayload) :
  broadcasts_only link (run' payload).
Proof.
  unfold run_agent_task. apply only_bind; [apply only_broadcast|]. intros _.
  apply only_catch; [|intros e; apply only_broadcast].
  unfold task_body. apply only_bind; [apply dispatch_only|]. intros result.
  only_broadcasts.
Qed.

(** The task runner by its dispatch: it returns, after the broadcast of
    the closing notice. *)
Lemma run_agent_task_eq (payload : TaskPayload) (st : server) :
  run' payload st =
  let d := dispatch' payload
             (snd (broadcast link (Starting (persona payload)) st)) in
  (Ok tt, snd (broadcast link (closing json_dumps (fst d)) (snd d))).
Proof.
  cbv zeta.
  remember (snd (broadcast link (Starting (persona payload)) st)) as st1 eqn:E1.
  unfold run_agent_task, task_body.
  unfold mbind at 1. unfold broadcast at 1. cbv beta iota.
  unfold broadcast in E1. cbn [snd] in E1. rewrite <- E1. clear E1.
  unfold mbind at 1.
  destruct (dispatch _ _ _ _ _ _ _ _ _ _ _ _ _ payload st1)
    as [[result|e] st2]; cbn [fst snd closing].
  - destruct (truthy result).
    + unfold mbind, lift. destruct (json_dumps result) as [text|e];
        reflexivity.
    + reflexivity.
  - reflexivity.
Qed.

End Delivery.

End TransportFacts.

Import TransportFacts.

(** ** Subscribers and tasks *)


Section TaskFlows.
Variable link : websocket -> notice -> outcome unit.
Variable new_commerce_agent : outcome unit.
Variable commerce_execute_task : string -> value -> string -> outcome value.
Variable new_ride_agent : outcome unit.
Variable compare_rides : value -> value -> outcome value.
Variable new_pharmacy_agent : outcome unit.
Variable compare_prices : value -> string -> outcome value.
Variable new_coordinator_agent : outcome unit.
Variable make_agent : string -> outcome unit.
Variable agent_run : string -> outcome string.
Variable order_task : string -> string -> string -> string -> outcome value.
Variable book_cheapest_ride : value -> value -> outcome value.
Variable json_dumps : value -> outcome string.
Variable repr : value -> string.

Local Abbreviation task_dispatch :=
  (dispatch link new_commerce_agent commerce_execute_task new_ride_agent
     compare_rides new_pharmacy_agent compare_prices new_coordinator_agent
     make_agent agent_run order_task book_cheapest_ride repr).

Local Abbreviation task_run :=
  (run_agent_task link new_commerce_agent commerce_execute_task new_ride_agent
     compare_rides new_pharmacy_agent compare_prices new_coordinator_agent
     make_agent agent_run order_task book_cheapest_ride json_dumps repr).

(** X12.  A task changes nothing but what it broadcasts: it leaves the
    registry as it is, and - no socket coming or going while it runs -
    every notice of the task went, in the order of the notices, to the
    registered sockets that took it.  A socket that is registered once and
    takes every notice has received exactly the notices of the task, in
    their order. *)
Theorem task_notices_reach_subscribers (payload : TaskPayload) (st : server) :
  let st' := snd (task_run payload st) in
  exists ns,
    active_connections st' = active_connections st /\
    announced st' = (announced st ++ ns)%list /\
    wire st'
    = (wire st ++ flat_map (frames link (active_connections st)) ns)%list /\
    forall ws,
      registered ws (active_connections st) = 1%nat ->
      Forall (fun n => returns (link ws n) = true) ns ->
      inbox ws (wire st') = (inbox ws (wire st) ++ ns)%list.
Proof.
  cbv zeta.
  destruct (run_agent_task_only link new_commerce_agent commerce_execute_task
              new_ride_agent compare_rides new_pharmacy_agent compare_prices
              new_coordinator_agent make_agent agent_run order_task
              book_cheapest_ride json_dumps repr payload st)
    as (ns & C & A & W).
  exists ns. repeat split; auto.
  intros ws R T. rewrite W, inbox_app, inbox_flat_map. f_equal. rewrite R.
  clear -T. induction T as [|n ns Hn _ IH]; [reflexivity|].
  cbn [flat_map]. rewrite Hn, IH. reflexivity.
Qed.

(** X13.  A persona that is none of the four is no fault: no agent is
    built, and the task reports a failure without data right after its
    start notice. *)
Theorem unknown_persona_reports_no_data (payload : TaskPayload) (st : server) :
  ~ In (persona payload) ["shopper"; "rider"; "patient"; "coordinator"] ->
  fst (task_run payload st) = Ok tt /\
  announced (snd (task_run payload st))
  = (announced st ++ [Starting (persona payload); TaskFailedNoData])%list.
Proof.
  intros H. rewrite run_agent_task_eq. cbv zeta.
  set (st1 := snd (broadcast link (Starting (persona payload)) st)).
  assert (D : task_dispatch payload st1 = (Ok VNone, st1)).
  { unfold dispatch.
    repeat match goal with
           | |- context [String.eqb ?a ?b] =>
               destruct (String.eqb_spec a b) as [E|_];
               [exfalso; apply H; rewrite E; simpl; tauto|]
           end.
    reflexivity. }
  rewrite D. cbn [fst snd closing truthy]. split; [reflexivity|].
  subst st1. unfold broadcast. cbn [snd announced].
  now rewrite <- app_assoc.
Qed.

(** X14.  The shopper: Flipkart is searched exactly when the status of
    Amazon's result is "failed", after a notice that says so, and then the
    task closes on Flipkart's result alone - on Amazon's otherwise. *)
Theorem shopper_tries_flipkart_after_amazon (payload : TaskPayload)
    (st : server) (r1 s1 : value) :
  persona payload = "shopper" ->
  new_commerce_agent = Ok tt ->
  commerce_execute_task "Amazon" (product payload) "product" = Ok r1 ->
  subscript r1 "status" = Ok s1 ->
  let searching :=
    Progress ("Searching for " ++ fmt repr (product payload)
              ++ " on Amazon/Flipkart...") in
  announced (snd (task_run payload st))
  = (announced st ++
     if eq_str s1 "failed"
     then [Starting "shopper"; searching;
           Progress "Amazon failed, trying Flipkart...";
           closing json_dumps
             (commerce_execute_task "Flipkart" (product payload) "product")]
     else [Starting "shopper"; searching; closing json_dumps (Ok r1)])%list.
Proof.
  intros Hp Hn H1 Hs. cbv zeta. rewrite run_agent_task_eq. cbv zeta.
  set (st1 := snd (broadcast link (Starting (persona payload)) st)).
  set (searching := Progress _).
  assert (D : task_dispatch payload st1 =
              if eq_str s1 "failed"
              then (commerce_execute_task "Flipkart" (product payload) "product",
                    snd (broadcast link
                           (Progress "Amazon failed, trying Flipkart...")
                           (snd (broadcast link searching st1))))
              else (Ok r1, snd (broadcast link searching st1))).
  { unfold dispatch. rewrite Hp, String.eqb_refl.
    unfold mbind, lift, ret. rewrite Hn.
    unfold broadcast at 1. cbv beta iota. rewrite H1, Hs.
    destruct (eq_str s1 "failed"); [|reflexivity].
    unfold broadcast at 1. cbv beta iota.
    now destruct (commerce_execute_task "Flipkart" _ _). }
  rewrite D. subst st1. rewrite Hp.
  destruct (eq_str s1 "failed"); unfold broadcast; cbn [fst snd announced];
    now rewrite <- !app_assoc.
Qed.

(** X15.  The rider and the patient: the task closes on the best deal (the
    best option) of the comparison, and a comparison that names none is
    not reported as a failure but as complete, with the result
    [{"status": "failed"}]. *)
Theorem comparison_without_best_is_complete (payload : TaskPayload)
    (st : server) (d0 : dict) (text : string) :
  json_dumps failed_status = Ok text ->
  (persona payload = "rider" -> new_ride_agent = Ok tt ->
   compare_rides (pickup payload) (drop_ payload) = Ok (VDict d0) ->
   let comparing :=
     Progress ("Comparing rides from " ++ fmt repr (pickup payload)
               ++ " to " ++ fmt repr (drop_ payload) ++ "...") in
   announced (snd (task_run payload st))
   = (announced st ++
      [Starting "rider"; comparing;
       closing json_dumps (Ok (field "best_deal" failed_status d0))])%list /\
   (dict_lookup "best_deal" d0 = None ->
    announced (snd (task_run payload st))
    = (announced st ++ [Starting "rider"; comparing; TaskComplete text])%list))
  /\
  (persona payload = "patient" -> new_pharmacy_agent = Ok tt ->
   compare_prices (medicine payload) "patient" = Ok (VDict d0) ->
   let searching :=
     Progress ("Searching for medicine: " ++ fmt repr (medicine payload)
               ++ "...") in
   announced (snd (task_run payload st))
   = (announced st ++
      [Starting "patient"; searching;
       closing json_dumps (Ok (field "best_option" failed_status d0))])%list /\
   (dict_lookup "best_option" d0 = None ->
    announced (snd (task_run payload st))
    = (announced st ++ [Starting "patient"; searching; TaskComplete text])%list)).
Proof.
  intros Hd. split; intros Hp Hn Hc; cbv zeta.
  - assert (E : announced (snd (task_run payload st))
                = (announced st ++
                   [Starting "rider";
                    Progress ("Comparing rides from "
                              ++ fmt repr (pickup payload) ++ " to "
                              ++ fmt repr (drop_ payload) ++ "...");
                    closing json_dumps
                      (Ok (field "best_deal" failed_status d0))])%list).
    { rewrite run_agent_task_eq. cbv zeta.
      set (st1 := snd (broadcast link (Starting (persona payload)) st)).
      set (comparing := Progress _).
      assert (D : task_dispatch payload st1 =
                  (Ok (field "best_deal" failed_status d0),
                   snd (broadcast link comparing st1))).
      { unfold dispatch. rewrite Hp.
        change (String.eqb "rider" "shopper") with false.
        rewrite String.eqb_refl. cbv iota.
        unfold mbind, lift, ret. rewrite Hn.
        unfold broadcast at 1. cbv beta iota. rewrite Hc.
        unfold get_method, field.
        now destruct (dict_lookup "best_deal" d0). }
      rewrite D. subst st1. rewrite Hp.
      unfold broadcast; cbn [fst snd announced]. now rewrite <- !app_assoc. }
    split; [exact E|]. intros N. rewrite E. unfold field. rewrite N.
    unfold closing. change (truthy failed_status) with true. cbv iota.
    now rewrite Hd.
  - assert (E : announced (snd (task_run payload st))
                = (announced st ++
                   [Starting "patient";
                    Progress ("Searching for medicine: "
                              ++ fmt repr (medicine payload) ++ "...");
                    closing json_dumps
                      (Ok (field "best_option" failed_status d0))])%list).
    { rewrite run_agent_task_eq. cbv zeta.
      set (st1 := snd (broadcast link (Starting (persona payload)) st)).
      set (searching := Progress _).
      assert (D : task_dispatch payload st1 =
                  (Ok (field "best_option" failed_status d0),
                   snd (broadcast link searching st1))).
      { unfold dispatch. rewrite Hp.
        change (String.eqb "patient" "shopper") with false.
        change (String.eqb "patient" "rider") with false.
        rewrite String.eqb_refl. cbv iota.
        unfold mbind, lift, ret. rewrite Hn.
        unfold broadcast at 1. cbv beta iota. rewrite Hc.
        unfold get_method, field.
        now destruct (dict_lookup "best_option" d0). }
      rewrite D. subst st1. rewrite Hp.
      unfold broadcast; cbn [fst snd announced]. now rewrite <- !app_assoc. }
    split; [exact E|]. intros N. rewrite E. unfold field. rewrite N.
    unfold closing. change (truthy failed_status) with true. cbv iota.
    now rewrite Hd.
Qed.

End TaskFlows.

Lemma unknown_persona_reports_no_data_witness :
  announced (snd (run_agent_task sample_link (Ok tt) sample_execute_task
                    (Ok tt) (fun _ _ => Ok VNone) (Ok tt) (fun _ _ => Ok VNone)
                    (Ok tt) (fun _ => Ok tt) sample_agent
                    (fun _ _ _ _ => Ok VNone) (fun _ _ => Ok VNone)
                    sample_dumps sample_repr
                    (Payload "chef" VNone VNone VNone VNone VNone [])
                    idle_server))
  = [Starting "chef"; TaskFailedNoData].
Proof.
  assert (H : ~ In (persona (Payload "chef" VNone VNone VNone VNone VNone []))
                   ["shopper"; "rider"; "patient"; "coordinator"]).
  { simpl. intros [H|[H|[H|[H|[]]]]]; discriminate H. }
  exact (proj2 (@unknown_persona_reports_no_data sample_link (Ok tt)
                  sample_execute_task (Ok tt) (fun _ _ => Ok VNone) (Ok tt)
                  (fun _ _ => Ok VNone) (Ok tt) (fun _ => Ok tt) sample_agent
                  (fun _ _ _ _ => Ok VNone) (fun _ _ => Ok VNone)
                  sample_dumps sample_repr
                  (Payload "chef" VNone VNone VNone VNone VNone [])
                  idle_server H)).
Defined.

Lemma shopper_tries_flipkart_after_amazon_witness :
  announced (snd (run_agent_task sample_link (Ok tt) sample_execute_task
                    (Ok tt) (fun _ _ => Ok VNone) (Ok tt) (fun _ _ => Ok VNone)
                    (Ok tt) (fun _ => Ok tt) sample_agent
                    (fun _ _ _ _ => Ok VNone) (fun _ _ => Ok VNone)
                    sample_dumps sample_repr sample_payload idle_server))
  = [Starting "shopper";
     Progress "Searching for phone on Amazon/Flipkart...";
     Progress "Amazon failed, trying Flipkart...";
     TaskComplete "<object>"].
Proof.
  exact (@shopper_tries_flipkart_after_amazon sample_link (Ok tt)
           sample_execute_task (Ok tt) (fun _ _ => Ok VNone) (Ok tt)
           (fun _ _ => Ok VNone) (Ok tt) (fun _ => Ok tt) sample_agent
           (fun _ _ _ _ => Ok VNone) (fun _ _ => Ok VNone)
           sample_dumps sample_repr sample_payload idle_server
           (VDict [("status", VStr "failed")]) (VStr "failed")
           eq_refl eq_refl eq_refl eq_refl).
Defined.

Lemma comparison_without_best_is_complete_witness :
  announced (snd (run_agent_task sample_link (Ok tt) sample_execute_task
                    (Ok tt) (fun _ _ => Ok (VDict [])) (Ok tt)
                    (fun _ _ => Ok VNone) (Ok tt) (fun _ => Ok tt) sample_agent
                    (fun _ _ _ _ => Ok VNone) (fun _ _ => Ok VNone)
                    sample_dumps sample_repr
                    (Payload "rider" VNone (VStr "Home") (VStr "Office") VNone
                             VNone [])
                    idle_server))
  = [Starting "rider"; Progress "Comparing rides from Home to Office...";
     TaskComplete "<object>"].
Proof.
  destruct (@comparison_without_best_is_complete sample_link (Ok tt)
              sample_execute_task (Ok tt) (fun _ _ => Ok (VDict [])) (Ok tt)
              (fun _ _ => Ok VNone) (Ok tt) (fun _ => Ok tt) sample_agent
              (fun _ _ _ _ => Ok VNone) (fun _ _ => Ok VNone)
              sample_dumps sample_repr
              (Payload "rider" VNone (VStr "Home") (VStr "Office") VNone
                       VNone [])
              idle_server [] "<object>" eq_refl) as [R _].
  exact (proj2 (R eq_refl eq_refl eq_refl) eq_refl).
Defined.

Module CoordinatorFacts.

Import Py EventCoordinator.
Local Open Scope string_scope.

Section Coordinator.
Variable make_agent : string -> outcome unit.
Variable agent_run : string -> outcome string.
Variable execute_task : string -> string -> string -> string -> outcome value.
Variable book_cheapest_ride : value -> value -> outcome value.
Variable repr : value -> string.

Lemma run_whatsapp_task_returns (phone_name message : string) :
  make_agent (whatsapp_goal phone_name message) = Ok tt ->
  exists sent, run_whatsapp_task make_agent agent_run phone_name message
               = Ok sent.
Proof.
  intros H. unfold run_whatsapp_task. rewrite H. cbn [bind].
  destruct (agent_run _); eauto.
Qed.

Lemma invite_guests_ok (guests : list value) (event_details : string) :
  (forall goal, make_agent goal = Ok tt) ->
  Forall (fun g => returns (subscript g "name") = true) guests ->
  invite_guests make_agent agent_run repr guests event_details = Ok tt.
Proof.
  intros Hm H. induction H as [|g guests Hg _ IH]; [reflexivity|].
  cbn [invite_guests]. destruct (subscript g "name") as [name|e];
    [|discriminate Hg]. cbn [bind].
  destruct (@run_whatsapp_task_returns (fmt repr name)
              (invite_message event_details) (Hm _)) as [sent E].
  rewrite E. exact IH.
Qed.

Lemma invite_guests_missing (before after : list value) (g : value)
    (event_details : string) (e : exn) :
  (forall goal, make_agent goal = Ok tt) ->
  Forall (fun g => returns (subscript g "name") = true) before ->
  subscript g "name" = Raise e ->
  invite_guests make_agent agent_run repr (before ++ g :: after) event_details
  = Raise e.
Proof.
  intros Hm H Hg. induction H as [|g' before Hg' _ IH].
  - cbn [app invite_guests]. now rewrite Hg.
  - cbn [app invite_guests]. destruct (subscript g' "name") as [name|e'];
      [|discriminate Hg']. cbn [bind].
    destruct (@run_whatsapp_task_returns (fmt repr name)
                (invite_message event_details) (Hm _)) as [sent E].
    rewrite E. exact IH.
Qed.

Lemma order_food_ok (menu : list string) :
  Forall (fun item => returns (execute_task "Swiggy" item "food" "order") = true)
         menu ->
  order_food execute_task menu = Ok tt.
Proof.
  intros H. induction H as [|item menu Hi _ IH]; [reflexivity|].
  cbn [order_food]. destruct (execute_task "Swiggy" item "food" "order");
    [exact IH | discriminate Hi].
Qed.

End Coordinator.

End CoordinatorFacts.

(** ** The event coordinator *)

(** X16.  When the agent for a chat can be built, the invitations depend
    on the guest list alone: they all go out when every guest has a name,
    and stop with the fault of the first guest who has none - whether the
    sessions on WhatsApp succeed or raise makes no difference. *)
Theorem invitations_need_names_only (make_agent : string -> outcome unit)
    (agent_run : string -> outcome string) (repr : value -> string)
    (event_details : string) :
  (forall goal, make_agent goal = Ok tt) ->
  (forall guests,
      Forall (fun g => returns (subscript g "name") = true) guests ->
      EventCoordinator.invite_guests make_agent agent_run repr guests
        event_details = Ok tt) /\
  (forall before g after e,
      Forall (fun g => returns (subscript g "name") = true) before ->
      subscript g "name" = Raise e ->
      EventCoordinator.invite_guests make_agent agent_run repr
        (before ++ g :: after) event_details = Raise e).
Proof.
  intros Hm. split.
  - intros guests H. now apply CoordinatorFacts.invite_guests_ok.
  - intros before g after e H Hg.
    now apply CoordinatorFacts.invite_guests_missing.
Qed.

Lemma invitations_need_names_only_witness :
  EventCoordinator.invite_guests (fun _ => Ok tt) faulty_agent sample_repr
    [VDict [("name", VStr "Mom")]; VDict [("name", VStr "Rahul")]] "Diwali"
  = Ok tt /\
  EventCoordinator.invite_guests (fun _ => Ok tt) faulty_agent sample_repr
    ([VDict [("name", VStr "Mom")]] ++ VDict [("phone", VStr "1")] :: [])
    "Diwali"
  = Raise (Exn KeyError "name").
Proof.
  destruct (@invitations_need_names_only (fun _ => Ok tt) faulty_agent
              sample_repr "Diwali" (fun _ => eq_refl)) as [H1 H2].
  split.
  - apply H1. repeat constructor.
  - apply H2; [repeat constructor | reflexivity].
Defined.

(** X17.  The coordinator persona of the server: when the agents can be
    built, every guest has a name and the four orders of the menu return,
    the task closes on the success result - whatever the sessions on
    WhatsApp do, and without a ride being booked, since the server passes
    no logistics. *)
Theorem coordinator_task_completes
    (link : websocket -> notice -> outcome unit)
    (new_commerce_agent : outcome unit)
    (commerce_execute_task : string -> value -> string -> outcome value)
    (new_ride_agent : outcome unit)
    (compare_rides : value -> value -> outcome value)
    (new_pharmacy_agent : outcome unit)
    (compare_prices : value -> string -> outcome value)
    (new_coordinator_agent : outcome unit)
    (make_agent : string -> outcome unit)
    (agent_run : string -> outcome string)
    (order_task : string -> string -> string -> string -> outcome value)
    (book_cheapest_ride : value -> value -> outcome value)
    (json_dumps : value -> outcome string) (repr : value -> string)
    (payload : TaskPayload) (st : server) :
  persona payload = "coordinator" ->
  new_coordinator_agent = Ok tt ->
  (forall goal, make_agent goal = Ok tt) ->
  Forall (fun g => returns (subscript g "name") = true) (guest_list payload) ->
  Forall (fun item => returns (order_task "Swiggy" item "food" "order") = true)
         EventCoordinator.collect_preferences_and_build_menu ->
  announced
    (snd (run_agent_task link new_commerce_agent commerce_execute_task
            new_ride_agent compare_rides new_pharmacy_agent compare_prices
            new_coordinator_agent make_agent agent_run order_task
            book_cheapest_ride json_dumps repr payload st))
  = (announced st ++
     [Starting "coordinator";
      Progress ("Orchestrating Event: " ++ fmt repr (event_name payload));
      closing json_dumps
        (Ok (VDict [("status", VStr "success");
                    ("message", VStr "Event Orchestration Complete")]))])%list.
Proof.
  intros Hp Hn Hm Hg Ho. rewrite run_agent_task_eq. cbv zeta.
  set (st1 := snd (broadcast link (Starting (persona payload)) st)).
  set (orchestrating := Progress _).
  assert (D : dispatch link new_commerce_agent commerce_execute_task
                new_ride_agent compare_rides new_pharmacy_agent compare_prices
                new_coordinator_agent make_agent agent_run order_task
                book_cheapest_ride repr payload st1 =
              (Ok (VDict [("status", VStr "success");
                          ("message", VStr "Event Orchestration Complete")]),
               snd (broadcast link orchestrating st1))).
  { unfold dispatch. rewrite Hp.
    change (String.eqb "coordinator" "shopper") with false.
    change (String.eqb "coordinator" "rider") with false.
    change (String.eqb "coordinator" "patient") with false.
    rewrite String.eqb_refl. cbv iota.
    unfold mbind, lift, ret. rewrite Hn.
    unfold broadcast at 1. cbv beta iota.
    unfold orchestrate_event, EventCoordinator.orchestrate_event.
    rewrite (@CoordinatorFacts.invite_guests_ok make_agent agent_run repr
               (guest_list payload) _ Hm Hg).
    cbn [bind].
    rewrite (@CoordinatorFacts.order_food_ok order_task _ Ho). reflexivity. }
  rewrite D. subst st1. rewrite Hp.
  unfold broadcast; cbn [fst snd announced]. now rewrite <- !app_assoc.
Qed.

Lemma coordinator_task_completes_witness :
  announced
    (snd (run_agent_task sample_link (Ok tt) sample_execute_task
            (Ok tt) (fun _ _ => Ok VNone) (Ok tt) (fun _ _ => Ok VNone)
            (Ok tt) (fun _ => Ok tt) faulty_agent
            (fun _ _ _ _ => Ok VNone)
            (fun _ _ => Raise (Exn RuntimeError "no ride"))
            sample_dumps sample_repr
            (Payload "coordinator" VNone VNone VNone VNone (VStr "Diwali")
                     [VDict [("name", VStr "Mom")]])
            idle_server))
  = [Starting "coordinator"; Progress "Orchestrating Event: Diwali";
     TaskComplete "<object>"].
Proof.
  apply (@coordinator_task_completes sample_link (Ok tt) sample_execute_task
           (Ok tt) (fun _ _ => Ok VNone) (Ok tt) (fun _ _ => Ok VNone)
           (Ok tt) (fun _ => Ok tt) faulty_agent
           (fun _ _ _ _ => Ok VNone)
           (fun _ _ => Raise (Exn RuntimeError "no ride"))
           sample_dumps sample_repr
           (Payload "coordinator" VNone VNone VNone VNone (VStr "Diwali")
                    [VDict [("name", VStr "Mom")]])
           idle_server);
    try reflexivity; repeat constructor.
Defined.

(** ** The socket endpoint *)

Module EndpointFacts.

Import Py Server ServerFacts Notions Endpoint TransportFacts.

Lemma receive_loop_texts (ws : websocket) (texts : list string)
    (rest : list received) :
  receive_loop ws (map Text texts ++ rest) = receive_loop ws rest.
Proof. induction texts as [|t texts IH]; [reflexivity | exact IH]. Qed.

Lemma existsb_appended (ws : websocket) (l : list websocket) :
  existsb (Nat.eqb ws) (l ++ [ws]) = true.
Proof.
  rewrite existsb_app. cbn [existsb]. rewrite Nat.eqb_refl.
  now rewrite orb_true_r.
Qed.

End EndpointFacts.

Import Endpoint EndpointFacts.

(** X18.  One endpoint on its own, no other socket coming or going.  A
    socket whose handshake succeeds is registered and stays so while texts
    come in.  When the peer disconnects, the endpoint returns without a
    fault and the registry holds what it held before the socket came -
    exactly as before when the socket was not in it.  When [receive_text]
    raises anything else, the fault leaves the endpoint and the socket
    remains registered. *)
Theorem endpoint_lifecycle (accept : websocket -> outcome unit)
    (ws : websocket) (texts : list string) (rest : list received)
    (st : server) :
  accept ws = Ok tt ->
  let joined := ServerState (active_connections st ++ [ws]) (wire st)
                            (announced st) in
  websocket_endpoint accept ws (map Text texts) st = (Ok Waiting, joined) /\
  (forall e,
      websocket_endpoint accept ws (map Text texts ++ Fault e :: rest) st
      = (Raise e, joined)) /\
  exists st',
    websocket_endpoint accept ws (map Text texts ++ Disconnect :: rest) st
    = (Ok Returned, st') /\
    Permutation (active_connections st') (active_connections st) /\
    wire st' = wire st /\ announced st' = announced st /\
    (~ In ws (active_connections st) -> st' = st).
Proof.
  intros Ha. cbv zeta. unfold websocket_endpoint, mbind, connect.
  rewrite Ha. split; [|split].
  - rewrite <- (app_nil_r (map Text texts)), receive_loop_texts. reflexivity.
  - intros e. rewrite receive_loop_texts. reflexivity.
  - rewrite receive_loop_texts. cbn [receive_loop]. unfold mbind, disconnect.
    cbn [active_connections wire announced]. rewrite existsb_appended.
    eexists. split; [reflexivity|].
    cbn [active_connections wire announced].
    split; [apply remove_first_appended|]. split; [reflexivity|].
    split; [reflexivity|].
    intros N. rewrite (@remove_first_new ws _ N). now destruct st.
Qed.

Lemma endpoint_lifecycle_witness :
  websocket_endpoint sample_accept 3
    (map Text ["ping"; "ping"] ++ Disconnect :: []) (ServerState [1; 2] [] [])
  = (Ok Returned, ServerState [1; 2] [] []).
Proof.
  destruct (@endpoint_lifecycle sample_accept 3 ["ping"; "ping"] []
              (ServerState [1; 2] [] []) eq_refl)
    as (_ & _ & st' & E & _ & _ & _ & R).
  rewrite E. f_equal. apply R. simpl. intros [H|[H|[]]]; discriminate H.
Defined.

Lemma filter_remove_first (ws : websocket) (l : list websocket) :
  filter (fun y => negb (Nat.eqb y ws)) (remove_first ws l)
  = filter (fun y => negb (Nat.eqb y ws)) l.
Proof.
  induction l as [|y l IH]; [reflexivity|]. cbn [remove_first].
  destruct (Nat.eqb ws y) eqn:E.
  - cbn [filter]. rewrite Nat.eqb_sym, E. reflexivity.
  - cbn [filter]. rewrite Nat.eqb_sym, E. cbn [negb]. now rewrite IH.
Qed.

(** X19.  A disconnect that returns takes one entry of its socket out of
    the registry and nothing else: a socket that was registered twice is
    still registered once, and the other sockets keep their entries and
    their order. *)
Theorem disconnect_takes_one_entry (ws : websocket) (st st' : server) :
  disconnect ws st = (Ok tt, st') ->
  S (registered ws (active_connections st'))
  = registered ws (active_connections st) /\
  (forall x, x <> ws ->
             registered x (active_connections st')
             = registered x (active_connections st)) /\
  filter (fun y => negb (Nat.eqb y ws)) (active_connections st')
  = filter (fun y => negb (Nat.eqb y ws)) (active_connections st) /\
  wire st' = wire st /\ announced st' = announced st.
Proof.
  unfold disconnect.
  destruct (existsb (Nat.eqb ws) (active_connections st)) eqn:E;
    [|discriminate].
  intros [= <-]. cbn [active_connections wire announced].
  apply existsb_eqb_In in E.
  split; [|split; [|split; [apply filter_remove_first | auto]]].
  - rewrite registered_remove_first, Nat.eqb_refl.
    assert (P : (0 < registered ws (active_connections st))%nat)
      by (apply count_occ_In; exact E).
    lia.
  - intros x N. rewrite registered_remove_first.
    now rewrite (proj2 (Nat.eqb_neq x ws) N).
Qed.

Lemma disconnect_takes_one_entry_witness :
  S (registered 7 (active_connections (ServerState [8; 7] [] [])))
  = registered 7 (active_connections (ServerState [7; 8; 7] [] [])).
Proof.
  exact (proj1 (@disconnect_takes_one_entry 7 (ServerState [7; 8; 7] [] [])
                  (ServerState [8; 7] [] []) eq_refl)).
Defined.

Module ProseFacts.

Import Py PyFacts CommerceAgent Reading FenceFacts.
Local Open Scope string_scope.

Lemma drop_append_more (a b : string) (n : nat) :
  drop (length a + n) (a ++ b) = drop n b.
Proof. induction a as [|c a IH]; [reflexivity | exact IH]. Qed.

(** A fence tag does not begin inside a text without a fence. *)
Lemma prefix_tag_overlap (c : ascii) (pre rest : string) :
  prefix "```" (String c pre) = false ->
  prefix "```json" (String c pre ++ "```json" ++ rest) = false.
Proof.
  destruct pre as [|b [|d pre]]; cbn [prefix append];
    repeat match goal with
           | |- context [ascii_dec ?x ?y] =>
               destruct (ascii_dec x y); cbn [prefix append]
           end; try reflexivity; try discriminate.
  now destruct pre.
Qed.

Lemma find_tag_after (pre rest : string) :
  find "```" pre = None ->
  find "```json" (pre ++ "```json" ++ rest) = Some (length pre).
Proof.
  induction pre as [|c pre IH].
  - intros _. change ("" ++ "```json" ++ rest) with ("```json" ++ rest).
    rewrite find_eq. now rewrite (prefix_append "```json" rest).
  - rewrite find_eq.
    destruct (prefix "```" (String c pre)) eqn:P; [discriminate|].
    destruct (find "```" pre) eqn:F; [discriminate|]. intros _.
    change (String c pre ++ "```json" ++ rest)
      with (String c (pre ++ "```json" ++ rest)).
    rewrite find_cons_miss.
    + rewrite IH by reflexivity. reflexivity.
    + change (String c (pre ++ "```json" ++ rest))
        with (String c pre ++ "```json" ++ rest).
      now apply prefix_tag_overlap.
Qed.

Lemma find_fence_before (t post : string) :
  find "```" t = None ->
  find "```" (t ++ newline ++ "```" ++ post) = Some (S (length t)).
Proof.
  induction t as [|c t IH].
  - intros _. change ("" ++ newline ++ "```" ++ post)
      with (String (ascii_of_nat 10) ("```" ++ post)).
    rewrite find_cons_miss by reflexivity.
    rewrite find_eq. now rewrite (prefix_append "```" post).
  - rewrite find_eq.
    destruct (prefix "```" (String c t)) eqn:P; [discriminate|].
    destruct (find "```" t) eqn:F; [discriminate|]. intros _.
    change (String c t ++ newline ++ "```" ++ post)
      with (String c (t ++ newline ++ "```" ++ post)).
    rewrite find_cons_miss.
    + rewrite IH by reflexivity. reflexivity.
    + change (String c (t ++ newline ++ "```" ++ post))
        with (String c t ++ newline ++ "```" ++ post).
      now rewrite prefix_fence_newline.
Qed.

(** The interior of a block and what follows it hold no second tag. *)
Lemma find_tag_none (t post : string) :
  find "```" t = None ->
  find "```json" ("```" ++ post) = None ->
  find "```json" (newline ++ t ++ newline ++ "```" ++ post) = None.
Proof.
  intros Ht Hp.
  assert (F2 : find "```" (newline ++ t ++ newline ++ "```" ++ post)
               = Some (S (S (length t)))).
  { change (newline ++ t ++ newline ++ "```" ++ post)
      with (String (ascii_of_nat 10) (t ++ newline ++ "```" ++ post)).
    rewrite find_cons_miss by reflexivity.
    now rewrite find_fence_before. }
  destruct (find "```json" (newline ++ t ++ newline ++ "```" ++ post))
    as [j|] eqn:F; [|reflexivity].
  pose proof (find_some_prefix _ _ F) as P.
  destruct (Nat.lt_ge_cases j (S (S (length t)))) as [L|G].
  - apply (prefix_append_l "```" "json") in P.
    now rewrite (@find_some_first _ _ _ j F2 L) in P.
  - replace (newline ++ t ++ newline ++ "```" ++ post)
      with ((newline ++ t ++ newline) ++ "```" ++ post) in P
      by (rewrite !append_assoc; reflexivity).
    replace j with (length (newline ++ t ++ newline)
                    + (j - S (S (length t))))%nat in P
      by (rewrite !length_append; simpl; lia).
    rewrite drop_append_more in P.
    now rewrite (@find_none_prefix _ _ (j - S (S (length t))) Hp) in P.
Qed.

Lemma split_fuel_head_none (fuel : nat) (sep s : string) :
  find sep s = None -> split_fuel fuel sep s = [s].
Proof. intros H. destruct fuel; [reflexivity|]. cbn. now rewrite H. Qed.

(** Lines 79-83 on a block tagged json that stands in prose. *)
Lemma strip_fence_in_prose (pre t post : string) :
  find "```" pre = None ->
  find "```" t = None ->
  find "```json" ("```" ++ post) = None ->
  strip_fence (pre ++ fenced t ++ post) = Ok (strip t).
Proof.
  intros Hpre Ht Hpost. unfold strip_fence, contains, fenced.
  replace (pre ++ ("```json" ++ newline ++ t ++ newline ++ "```") ++ post)
    with (pre ++ "```json" ++ newline ++ t ++ newline ++ "```" ++ post)
    by (rewrite !append_assoc; reflexivity).
  set (r := newline ++ t ++ newline ++ "```" ++ post).
  change (pre ++ "```json" ++ newline ++ t ++ newline ++ "```" ++ post)
    with (pre ++ "```json" ++ r).
  rewrite (find_tag_after pre r Hpre).
  assert (F3 : find "```json" r = None) by now apply find_tag_none.
  assert (F2 : find "```" r = Some (S (S (length t)))).
  { unfold r.
    change (newline ++ t ++ newline ++ "```" ++ post)
      with (String (ascii_of_nat 10) (t ++ newline ++ "```" ++ post)).
    rewrite find_cons_miss by reflexivity.
    now rewrite find_fence_before. }
  assert (E1 : getitem_list (split "```json" (pre ++ "```json" ++ r)) 1
               = Ok r).
  { unfold split.
    replace (length (pre ++ "```json" ++ r))
      with (S (length pre + 6 + length r))
      by (rewrite !length_append; simpl; lia).
    cbn [split_fuel]. rewrite (find_tag_after pre r Hpre).
    rewrite drop_append_more.
    change (drop (length "```json") ("```json" ++ r)) with r.
    now rewrite (@split_fuel_head_none _ _ _ F3). }
  rewrite E1. cbn [bind].
  assert (E2 : getitem_list (split "```" r) 0 = Ok (newline ++ t ++ newline)).
  { unfold split.
    replace (length r) with (S (length (t ++ newline ++ "```" ++ post)))
      by reflexivity.
    cbn [split_fuel]. rewrite F2. cbn [getitem_list nth_error]. f_equal.
    unfold r.
    replace (newline ++ t ++ newline ++ "```" ++ post)
      with ((newline ++ t ++ newline) ++ "```" ++ post)
      by (rewrite !append_assoc; reflexivity).
    replace (S (S (length t))) with (length (newline ++ t ++ newline))
      by (rewrite !length_append; simpl; lia).
    apply take_append. }
  rewrite E2. cbn [bind]. f_equal.
  change (newline ++ t ++ newline)
    with (String (ascii_of_nat 10) (t ++ newline)).
  rewrite strip_cons_space by reflexivity.
  unfold strip, newline. now rewrite rstrip_snoc_space.
Qed.

Lemma rstrip_append_blank (a b : string) :
  rstrip b = "" -> rstrip (a ++ b) = rstrip a.
Proof.
  intros H. induction a as [|c a IH]; [exact H|].
  cbn [append rstrip]. now rewrite IH.
Qed.

Lemma rstrip_append_other (a b : string) :
  rstrip b <> "" -> rstrip (a ++ b) = a ++ rstrip b.
Proof.
  intros H. induction a as [|c a IH]; [reflexivity|].
  cbn [append rstrip]. rewrite IH.
  destruct (a ++ rstrip b) eqn:E; [|reflexivity].
  destruct a; [now destruct H | discriminate E].
Qed.

Lemma lstrip_append_other (a b : string) (c : ascii) :
  is_space c = false -> lstrip (a ++ String c b) = lstrip a ++ String c b.
Proof.
  intros H. induction a as [|d a IH].
  - cbn [append lstrip]. now rewrite H.
  - cbn [append lstrip]. destruct (is_space d); [exact IH | reflexivity].
Qed.

(** [strip] of a text around a block works on the prose alone. *)
Lemma strip_around_fenced (pre t post : string) :
  strip (pre ++ fenced t ++ post) = lstrip pre ++ fenced t ++ rstrip post.
Proof.
  unfold strip.
  assert (R : rstrip (pre ++ fenced t ++ post)
              = pre ++ fenced t ++ rstrip post).
  { assert (X : rstrip (pre ++ fenced t) = pre ++ fenced t).
    { unfold fenced.
      replace (pre ++ "```json" ++ newline ++ t ++ newline ++ "```")
        with ((pre ++ "```json" ++ newline ++ t ++ newline ++ "``") ++ "`")
        by (rewrite !append_assoc; reflexivity).
      now rewrite rstrip_snoc_other. }
    rewrite <- !append_assoc.
    destruct (rstrip post) eqn:E.
    - rewrite (@rstrip_append_blank _ _ E), append_nil_r. exact X.
    - rewrite rstrip_append_other by (rewrite E; discriminate).
      now rewrite E. }
  rewrite R. unfold fenced.
  change (("```json" ++ newline ++ t ++ newline ++ "```") ++ rstrip post)
    with (String "`" (("``json" ++ newline ++ t ++ newline ++ "```")
                      ++ rstrip post)).
  now rewrite lstrip_append_other.
Qed.

Lemma strip_fence_strip_in_prose (pre t post : string) :
  find "```" pre = None ->
  find "```" t = None ->
  find "```json" ("```" ++ post) = None ->
  strip_fence (strip (pre ++ fenced t ++ post)) = Ok (strip t).
Proof.
  intros Hpre Ht Hpost. rewrite strip_around_fenced.
  apply strip_fence_in_prose; [|exact Ht|].
  - destruct (lstrip_drop pre) as [n ->]. now apply find_drop_none.
  - destruct (rstrip_take post) as [n ->].
    change ("```" ++ take n post) with (take (3 + n) ("```" ++ post)).
    now apply find_take_none.
Qed.

End ProseFacts.

Import ProseFacts.

(** ** A block in prose *)

(** X20.  Prose around the answer does no harm: when the agent writes
    text before and after one block tagged json, and neither the text
    before nor the block's interior holds a fence and no second tag
    follows, the block's interior is what is decoded, and status, items
    and best item are those of the interior given alone. *)
Theorem fenced_block_in_prose (json_loads : string -> outcome value)
    (repr : value -> string) (app pre t post : string) (w : world) :
  contains "```" pre = false ->
  contains "```" t = false ->
  contains "```json" ("```" ++ post) = false ->
  let a := parse_result json_loads repr app (pre ++ fenced t ++ post) w in
  let b := parse_result json_loads repr app t w in
  strip_fence (strip (pre ++ fenced t ++ post)) = Ok (strip t) /\
  status (fst a) = status (fst b) /\
  returned_items (fst a) (snd a) = returned_items (fst b) (snd b) /\
  best_item (fst a) = best_item (fst b).
Proof.
  unfold contains.
  destruct (find "```" pre) eqn:Fp; [discriminate|]. intros _.
  destruct (find "```" t) eqn:Ft; [discriminate|]. intros _.
  destruct (find "```json" ("```" ++ post)) eqn:Fq; [discriminate|]. intros _.
  cbv zeta. split; [now apply strip_fence_strip_in_prose|].
  rewrite !parse_result_eq. cbv zeta.
  rewrite (strip_fence_strip_in_prose pre t post Fp Ft Fq).
  rewrite (strip_fence_plain _ Ft).
  destruct (startswith "[" (strip t) || startswith "{" (strip t)); [|auto].
  destruct (json_loads (strip t)) as [v|e]; [|auto].
  destruct (iterate _) as [l|e]; [|auto].
  destruct (fst (collected repr l)); [|auto].
  destruct (sort_by_key _); auto.
Qed.

Lemma fenced_block_in_prose_witness :
  let output := ("Here are the results:" ++ newline) ++ fenced two_items_text
                ++ (newline ++ "Done.") in
  let a := parse_result sample_loads sample_repr "Amazon" output empty_world in
  let b := parse_result sample_loads sample_repr "Amazon" two_items_text
             empty_world in
  strip_fence (strip output) = Ok (strip two_items_text) /\
  status (fst a) = status (fst b) /\
  returned_items (fst a) (snd a) = returned_items (fst b) (snd b) /\
  best_item (fst a) = best_item (fst b).
Proof.
  apply (@fenced_block_in_prose sample_loads sample_repr "Amazon"
           ("Here are the results:" ++ newline) two_items_text
           (newline ++ "Done.") empty_world); vm_compute; reflexivity.
Defined.

(** ** Prices that are no prices, and full ties *)


(** X22.  Two best items with equal prices and equal ratings: the second
    platform wins, and the recommendation says that it has the better
    rating. *)
Theorem full_tie_is_called_better_rating (A B : string) (a b : value) :
  is_item a -> is_item b ->
  feq (numeric_price a) (numeric_price b) = true ->
  feq (numeric_rating a) (numeric_rating b) = true ->
  choose_winner A B a b
  = Ok (Some B, "Prices equal, but " ++ B ++ " has better rating.").
Proof.
  intros Ha Hb Ep Er. unfold choose_winner.
  rewrite (is_item_truthy Ha), (is_item_truthy Hb). cbn [andb].
  destruct (is_item_numbers Ha) as (Pa & Ra & _).
  destruct (is_item_numbers Hb) as (Pb & Rb & _).
  rewrite Pa, Pb, Ra, Rb. cbn [bind value_lt].
  rewrite (feq_not_lt _ _ Ep).
  rewrite feq_sym in Ep. rewrite (feq_not_lt _ _ Ep).
  rewrite feq_sym in Er. rewrite (feq_not_lt _ _ Er). reflexivity.
Qed.

Lemma full_tie_is_called_better_rating_witness :
  choose_winner "Amazon" "Flipkart" (item_of "$10" "4.5")
    (item_of "Rs. 10.00" "4.5 stars")
  = Ok (Some "Flipkart", "Prices equal, but Flipkart has better rating.").
Proof.
  apply (@full_tie_is_called_better_rating "Amazon" "Flipkart"
           (item_of "$10" "4.5") (item_of "Rs. 10.00" "4.5 stars")).
  - eexists _, _, _. repeat split; vm_compute; reflexivity.
  - eexists _, _, _. repeat split; vm_compute; reflexivity.
  - vm_compute. reflexivity.
  - vm_compute. reflexivity.
Defined.
